(** * North-Med reagent inventory: a shallow embedding of src/script.js

    The embedding follows the three pure layers of the script
    ([DateUtils], [InventoryService]) and the persistence layer
    ([InventoryRepository]) with its backend client made explicit.

    JavaScript values are modelled by [jsval]: numbers are exact rationals
    plus NaN and the two infinities (IEEE rounding and the double range are
    not modelled); strings are ASCII strings (the only characters
    [toLowerCase] touches in the model are A-Z). *)

From Stdlib Require Import String Ascii List ZArith QArith Lia Bool Permutation Sorted.
From stdpp Require Import base gmap.
Import ListNotations.
Open Scope string_scope.

(* ================================================================= *)
(** ** JavaScript primitive values *)

Inductive num : Type :=
| NaN
| PInf
| NInf
| Fin (q : Q).

Inductive jsval : Type :=
| JUndef
| JNull
| JBool (b : bool)
| JNum (n : num)
| JStr (s : string).

Definition jnum (z : Z) : jsval := JNum (Fin (inject_Z z)).

(** Truthiness ([!x], [x || d], [Boolean] as a filter). *)
Definition truthy (v : jsval) : bool :=
  match v with
  | JUndef | JNull => false
  | JBool b => b
  | JNum NaN => false
  | JNum (Fin q) => negb (Qeq_bool q 0)
  | JNum _ => true
  | JStr s => negb (String.eqb s "")
  end.

(** [x || d] *)
Definition js_or (x d : jsval) : jsval := if truthy x then x else d.

(** [x ?? d] *)
Definition nullish (x d : jsval) : jsval :=
  match x with JUndef | JNull => d | _ => x end.

(** [x == null] *)
Definition loose_null (x : jsval) : bool :=
  match x with JUndef | JNull => true | _ => false end.

(** [Number.isNaN(x)]: no coercion, only the number NaN. *)
Definition isNaN_strict (x : jsval) : bool :=
  match x with JNum NaN => true | _ => false end.

(* ----------------------------------------------------------------- *)
(** *** [Number(string)]: the StringToNumber grammar *)

Definition is_ws (c : ascii) : bool :=
  let n := nat_of_ascii c in
  (Nat.leb 9 n && Nat.leb n 13) || Nat.eqb n 32.

Fixpoint drop_ws (l : list ascii) : list ascii :=
  match l with
  | c :: r => if is_ws c then drop_ws r else l
  | [] => []
  end.

Definition trim_ws (l : list ascii) : list ascii :=
  rev (drop_ws (rev (drop_ws l))).

Definition digit_val (base : Z) (c : ascii) : option Z :=
  let n := Z.of_nat (nat_of_ascii c) in
  let v :=
    if ((48 <=? n) && (n <=? 57))%Z then Some (n - 48)%Z
    else if ((97 <=? n) && (n <=? 122))%Z then Some (n - 87)%Z
    else if ((65 <=? n) && (n <=? 90))%Z then Some (n - 55)%Z
    else None in
  match v with
  | Some d => if (d <? base)%Z then Some d else None
  | None => None
  end.

(** Longest prefix of digits in [base]: the digits and the rest. *)
Fixpoint take_digits (base : Z) (l : list ascii) : list Z * list ascii :=
  match l with
  | c :: r =>
      match digit_val base c with
      | Some d => let '(ds, rest) := take_digits base r in (d :: ds, rest)
      | None => ([], l)
      end
  | [] => ([], [])
  end.

Definition digits_value (base : Z) (ds : list Z) : Z :=
  fold_left (fun acc d => acc * base + d)%Z ds 0%Z.

Definition mk_Q (m e : Z) : Q :=
  if (0 <=? e)%Z then inject_Z (m * 10 ^ e)
  else Qmake m (Z.to_pos (10 ^ (- e))).

Definition str_Infinity : list ascii := list_ascii_of_string "Infinity".

(** StrUnsignedDecimalLiteral, with the value it denotes. *)
Definition unsigned_decimal (l : list ascii) : option num :=
  if List.list_eq_dec ascii_dec l str_Infinity then Some PInf else
  let '(ids, r1) := take_digits 10 l in
  let '(fds, r2) :=
    match r1 with
    | "."%char :: r => take_digits 10 r
    | _ => ([], r1)
    end in
  if (length ids =? 0)%nat && (length fds =? 0)%nat then None else
  let mant := digits_value 10 (ids ++ fds) in
  let scale := Z.of_nat (length fds) in
  match r2 with
  | [] => Some (Fin (mk_Q mant (- scale)))
  | c :: r3 =>
      if (c =? "e")%char || (c =? "E")%char then
        let '(sgn, r4) :=
          match r3 with
          | "+"%char :: r => (1%Z, r)
          | "-"%char :: r => ((-1)%Z, r)
          | _ => (1%Z, r3)
          end in
        let '(eds, r5) := take_digits 10 r4 in
        match eds, r5 with
        | _ :: _, [] => Some (Fin (mk_Q mant (sgn * digits_value 10 eds - scale)))
        | _, _ => None
        end
      else None
  end.

Definition num_neg (n : num) : num :=
  match n with
  | NaN => NaN | PInf => NInf | NInf => PInf | Fin q => Fin (- q)
  end.

(** [Number(s)] for a string [s]. *)
Definition StringToNumber (s : string) : num :=
  let l := trim_ws (list_ascii_of_string s) in
  match l with
  | [] => Fin 0
  | "0"%char :: x :: r =>
      let base :=
        if (x =? "x")%char || (x =? "X")%char then 16%Z
        else if (x =? "o")%char || (x =? "O")%char then 8%Z
        else if (x =? "b")%char || (x =? "B")%char then 2%Z else 0%Z in
      if (base =? 0)%Z then
        match unsigned_decimal l with Some n => n | None => NaN end
      else
        match take_digits base r with
        | ((_ :: _) as ds, []) => Fin (inject_Z (digits_value base ds))
        | _ => NaN
        end
  | "+"%char :: r => match unsigned_decimal r with Some n => n | None => NaN end
  | "-"%char :: r =>
      match unsigned_decimal r with Some n => num_neg n | None => NaN end
  | _ => match unsigned_decimal l with Some n => n | None => NaN end
  end.

(** [Number(v)] (ToNumber on primitives). *)
Definition ToNumber (v : jsval) : num :=
  match v with
  | JUndef => NaN
  | JNull => Fin 0
  | JBool b => if b then Fin 1 else Fin 0
  | JNum n => n
  | JStr s => StringToNumber s
  end.

(* ----------------------------------------------------------------- *)
(** *** Equality and relational comparison *)

Definition num_eqb (a b : num) : bool :=
  match a, b with
  | Fin p, Fin q => Qeq_bool p q
  | PInf, PInf | NInf, NInf => true
  | _, _ => false
  end.

(** Number::lessThan; [None] is the spec's undefined (a NaN operand). *)
Definition num_lt (a b : num) : option bool :=
  match a, b with
  | NaN, _ | _, NaN => None
  | Fin p, Fin q => Some (negb (Qle_bool q p))
  | NInf, NInf | PInf, PInf => Some false
  | NInf, _ => Some true
  | _, PInf => Some true
  | _, _ => Some false
  end.

Fixpoint ascii_list_lt (a b : list ascii) : bool :=
  match a, b with
  | _, [] => false
  | [], _ :: _ => true
  | x :: a', y :: b' =>
      if (x =? y)%char then ascii_list_lt a' b'
      else Nat.ltb (nat_of_ascii x) (nat_of_ascii y)
  end.

(** IsLessThan(a, b) on primitives. *)
Definition js_lt (a b : jsval) : option bool :=
  match a, b with
  | JStr s, JStr t =>
      Some (ascii_list_lt (list_ascii_of_string s) (list_ascii_of_string t))
  | _, _ => num_lt (ToNumber a) (ToNumber b)
  end.

(** [a < b], [a > b], [a <= b]. *)
Definition js_less (a b : jsval) : bool :=
  match js_lt a b with Some true => true | _ => false end.
Definition js_greater (a b : jsval) : bool := js_less b a.
Definition js_le (a b : jsval) : bool :=
  match js_lt b a with Some false => true | _ => false end.

(** [a === b] *)
Definition strict_eq (a b : jsval) : bool :=
  match a, b with
  | JUndef, JUndef | JNull, JNull => true
  | JBool x, JBool y => Bool.eqb x y
  | JNum x, JNum y => num_eqb x y
  | JStr s, JStr t => String.eqb s t
  | _, _ => false
  end.

(* ================================================================= *)
(** ** [DateUtils] *)

(** Time values are milliseconds since 1970-01-01T00:00Z.  Local time is
    UTC shifted by a fixed offset [tz] (milliseconds, local = UTC + tz);
    daylight-saving changes of the offset are not modelled. *)
Open Scope Z_scope.

Definition msPerDay : Z := 86400000.

Definition is_leap (y : Z) : bool :=
  ((y mod 4 =? 0) && negb (y mod 100 =? 0)) || (y mod 400 =? 0).

Definition days_in_month (y m : Z) : Z :=
  if (m =? 2)%Z then (if is_leap y then 29 else 28)
  else if (m =? 4) || (m =? 6) || (m =? 9) || (m =? 11) then 30 else 31.

(** Days from 1970-01-01 to the proleptic Gregorian date y-m-d. *)
Definition days_from_civil (y m d : Z) : Z :=
  let y' := if (m <=? 2)%Z then y - 1 else y in
  let era := y' / 400 in
  let yoe := y' - era * 400 in
  let mp := (m + 9) mod 12 in
  let doy := (153 * mp + 2) / 5 + d - 1 in
  let doe := yoe * 365 + yoe / 4 - yoe / 100 + doy in
  era * 146097 + doe - 719468.

Definition dig (c : ascii) : option Z := digit_val 10 c.

Definition num2 (a b : ascii) : option Z :=
  match dig a, dig b with
  | Some x, Some y => Some (10 * x + y)%Z
  | _, _ => None
  end.

Definition num4 (a b c d : ascii) : option Z :=
  match num2 a b, num2 c d with
  | Some x, Some y => Some (100 * x + y)%Z
  | _, _ => None
  end.

Definition utc_date (y m d : Z) : option Z :=
  if ((1 <=? m) && (m <=? 12) && (1 <=? d) && (d <=? days_in_month y m))%Z
  then Some (days_from_civil y m d * msPerDay)%Z
  else None.

(** [new Date(s)] on the date-only forms of the ECMAScript Date Time String
    Format ([YYYY], [YYYY-MM], [YYYY-MM-DD]), which denote UTC midnight; the
    form the date inputs of the page produce.  Any other string is treated as
    invalid (engines' date-time and legacy formats are outside the model). *)
Definition parse_date_string (s : string) : option Z :=
  match list_ascii_of_string s with
  | [a; b; c; d] =>
      match num4 a b c d with Some y => utc_date y 1 1 | None => None end
  | [a; b; c; d; "-"%char; e; f] =>
      match num4 a b c d, num2 e f with
      | Some y, Some m => utc_date y m 1
      | _, _ => None
      end
  | [a; b; c; d; "-"%char; e; f; "-"%char; g; h] =>
      match num4 a b c d, num2 e f, num2 g h with
      | Some y, Some m, Some dd => utc_date y m dd
      | _, _, _ => None
      end
  | _ => None
  end.

Definition Q_trunc (q : Q) : Z := Z.quot (Qnum q) (Zpos (Qden q)).

(** [new Date(v)] for a non-string primitive: TimeClip(ToNumber v). *)
Definition time_clip (n : num) : option Z :=
  match n with
  | Fin q =>
      let t := Q_trunc q in
      if (Z.abs t <=? 8640000000000000)%Z then Some t else None
  | _ => None
  end.

(** [DateUtils.parse]: [null] when falsy or an invalid date. *)
Definition parse (v : jsval) : option Z :=
  if negb (truthy v) then None
  else match v with
       | JStr s => parse_date_string s
       | _ => time_clip (ToNumber v)
       end.

(** [d.setHours(0, 0, 0, 0)]: the time value of local midnight of [t]. *)
Definition setHours0 (tz t : Z) : Z :=
  ((t + tz) / msPerDay) * msPerDay - tz.

(** [Math.round(x / y)] for integers, [y > 0]: floor(x / y + 1/2). *)
Definition round_div (x y : Z) : Z := (2 * x + y) / (2 * y).

(** [DateUtils.daysBetween(from, to)] on two Date objects (the call site
    only passes dates, so the [null] guard never fires). *)
Definition daysBetween (tz from to : Z) : Z :=
  let diff := setHours0 tz to - setHours0 tz from in
  round_div diff msPerDay.

Fixpoint digits_rev (fuel : nat) (n : Z) : list ascii :=
  match fuel with
  | O => []
  | S f =>
      ascii_of_nat (48 + Z.to_nat (n mod 10)) ::
      (if (n <? 10)%Z then [] else digits_rev f (n / 10))
  end.

(** Template-literal conversion of an integer. *)
Definition Z_to_string (z : Z) : string :=
  let ds := string_of_list_ascii
              (rev (digits_rev (S (Z.to_nat (Z.log2 (Z.abs z)))) (Z.abs z))) in
  if (z <? 0)%Z then "-" ++ ds else ds.

Record expiry_info := mkInfo {
  label : string;
  code : string;
  days : option Z
}.

Definition plural_s (d : Z) : string := if (d =? 1)%Z then "" else "s".

(** [DateUtils.classifyExpiry]; [now] is the time value of [new Date()]. *)
Definition classifyExpiry (tz now : Z) (expiryDateStr : jsval) : expiry_info :=
  match parse expiryDateStr with
  | None => mkInfo "No Expiry" "none" None
  | Some expiry =>
      let daysDiff := daysBetween tz now expiry in
      if (daysDiff <? 0)%Z then mkInfo "Expired" "expired" (Some daysDiff)
      else if (daysDiff <=? 90)%Z then
        mkInfo ("Expiring in " ++ Z_to_string daysDiff ++ " day" ++ plural_s daysDiff)
               "warning" (Some daysDiff)
      else
        mkInfo ("Valid (" ++ Z_to_string daysDiff ++ " day" ++ plural_s daysDiff ++ " left)")
               "good" (Some daysDiff)
  end.

(** The calendar date of a day number (days since 1970-01-01), proleptic
    Gregorian: what [getFullYear], [getMonth() + 1] and [getDate] return
    for a time in that local day (the era-based inverse of
    [days_from_civil]). *)
Definition civil_from_days (z0 : Z) : Z * Z * Z :=
  let z := z0 + 719468 in
  let era := z / 146097 in
  let doe := z - era * 146097 in
  let yoe := (doe - doe / 1460 + doe / 36524 - doe / 146096) / 365 in
  let y := yoe + era * 400 in
  let doy := doe - (365 * yoe + yoe / 4 - yoe / 100) in
  let mp := (5 * doy + 2) / 153 in
  let d := doy - (153 * mp + 2) / 5 + 1 in
  let m := if (mp <? 10)%Z then mp + 3 else mp - 9 in
  ((if (m <=? 2)%Z then y + 1 else y), m, d).

(** [s.padStart(2, '0')] *)
Definition padStart2 (s : string) : string :=
  match String.length s with
  | O => "00"
  | 1%nat => "0" ++ s
  | _ => s
  end.

(** [DateUtils.format]: the local date of [parse(dateStr)] as
    [DD/MM/YYYY], or the empty string. *)
Definition format (tz : Z) (dateStr : jsval) : string :=
  match parse dateStr with
  | None => ""
  | Some t =>
      let '(year, month, day) := civil_from_days ((t + tz) / msPerDay) in
      padStart2 (Z_to_string day) ++ "/" ++ padStart2 (Z_to_string month) ++ "/" ++
      Z_to_string year
  end.

(* ================================================================= *)
(** ** Items and backend rows *)

(** A text field: a string, or absent ([undefined] / [null]). *)
Inductive tv : Type :=
| TUndef
| TNull
| TStr (s : string).

Definition of_tv (x : tv) : jsval :=
  match x with TUndef => JUndef | TNull => JNull | TStr s => JStr s end.

(** [x || 'd'] on a text field. *)
Definition tv_or (x : tv) (d : string) : tv :=
  if truthy (of_tv x) then x else TStr d.

(** [x || null] on a text field. *)
Definition tv_or_null (x : tv) : tv :=
  if truthy (of_tv x) then x else TNull.

Module Item.
Record t := mk {
  id : tv;
  category : tv;
  itemName : tv;
  brand : tv;
  contentVolume : tv;
  lotNumber : tv;
  dateReceived : tv;
  expiryDate : tv;
  dateOpened : tv;
  status : tv;
  quantity : jsval;
  remarks : tv
}.
End Item.

(** The [inventory_items] row shape. *)
Module Row.
Record t := mk {
  id : tv;
  category : tv;
  item_name : tv;
  brand : tv;
  content_volume : tv;
  lot_number : tv;
  date_received : tv;
  expiry_date : tv;
  date_opened : tv;
  status : tv;
  quantity : jsval;
  remarks : tv
}.
End Row.

(** [item[field]] *)
Definition field_get (i : Item.t) (f : string) : jsval :=
  if String.eqb f "id" then of_tv (Item.id i)
  else if String.eqb f "category" then of_tv (Item.category i)
  else if String.eqb f "itemName" then of_tv (Item.itemName i)
  else if String.eqb f "brand" then of_tv (Item.brand i)
  else if String.eqb f "contentVolume" then of_tv (Item.contentVolume i)
  else if String.eqb f "lotNumber" then of_tv (Item.lotNumber i)
  else if String.eqb f "dateReceived" then of_tv (Item.dateReceived i)
  else if String.eqb f "expiryDate" then of_tv (Item.expiryDate i)
  else if String.eqb f "dateOpened" then of_tv (Item.dateOpened i)
  else if String.eqb f "status" then of_tv (Item.status i)
  else if String.eqb f "quantity" then Item.quantity i
  else if String.eqb f "remarks" then of_tv (Item.remarks i)
  else JUndef.

(** [InventoryRepository.mapRowToItem] on a row object. *)
Definition mapRowToItem (row : Row.t) : Item.t :=
  {| Item.id := Row.id row;
     Item.category := tv_or (Row.category row) "";
     Item.itemName := Row.item_name row;
     Item.brand := tv_or (Row.brand row) "";
     Item.contentVolume := tv_or (Row.content_volume row) "";
     Item.lotNumber := tv_or (Row.lot_number row) "";
     Item.dateReceived := tv_or (Row.date_received row) "";
     Item.expiryDate := tv_or (Row.expiry_date row) "";
     Item.dateOpened := tv_or (Row.date_opened row) "";
     Item.status := tv_or (Row.status row) "Unopened";
     Item.quantity := JNum (ToNumber (nullish (Row.quantity row) (jnum 0)));
     Item.remarks := tv_or (Row.remarks row) "" |}.

(** [InventoryRepository.mapItemToRow] *)
Definition mapItemToRow (item : Item.t) : Row.t :=
  {| Row.id := Item.id item;
     Row.category := tv_or_null (Item.category item);
     Row.item_name := Item.itemName item;
     Row.brand := tv_or_null (Item.brand item);
     Row.content_volume := tv_or_null (Item.contentVolume item);
     Row.lot_number := tv_or_null (Item.lotNumber item);
     Row.date_received := tv_or_null (Item.dateReceived item);
     Row.expiry_date := tv_or_null (Item.expiryDate item);
     Row.date_opened := tv_or_null (Item.dateOpened item);
     Row.status := tv_or (Item.status item) "Unopened";
     Row.quantity := JNum (ToNumber (nullish (Item.quantity item) (jnum 0)));
     Row.remarks := tv_or_null (Item.remarks item) |}.

(* ================================================================= *)
(** ** [InventoryService] *)

(** [createItem(payload)]; [gen] is the id built from [Date.now()] and
    [Math.random()] when the payload has none. *)
Definition createItem (payload : Item.t) (gen : string) : Item.t :=
  {| Item.id := tv_or (Item.id payload) gen;
     Item.category := Item.category payload;
     Item.itemName := Item.itemName payload;
     Item.brand := tv_or (Item.brand payload) "";
     Item.contentVolume := tv_or (Item.contentVolume payload) "";
     Item.lotNumber := tv_or (Item.lotNumber payload) "";
     Item.dateReceived := tv_or (Item.dateReceived payload) "";
     Item.expiryDate := tv_or (Item.expiryDate payload) "";
     Item.dateOpened := tv_or (Item.dateOpened payload) "";
     Item.status := tv_or (Item.status payload) "Unopened";
     Item.quantity := JNum (ToNumber (nullish (Item.quantity payload) (jnum 0)));
     Item.remarks := tv_or (Item.remarks payload) "" |}.

Definition msg_category := "Category is required".
Definition msg_itemName := "Item Name is required".
Definition msg_expiry := "Expiry Date is required".
Definition msg_number := "Quantity must be a number".
Definition msg_negative := "Quantity cannot be negative".

(** [validate(item)]: each check pushes onto [errors] in turn. *)
Definition validate (item : Item.t) : list string :=
  let errors : list string := [] in
  let errors :=
    if negb (truthy (of_tv (Item.category item))) then (errors ++ [msg_category])%list else errors in
  let errors :=
    if negb (truthy (of_tv (Item.itemName item))) then (errors ++ [msg_itemName])%list else errors in
  let errors :=
    if negb (truthy (of_tv (Item.expiryDate item))) then (errors ++ [msg_expiry])%list else errors in
  let errors :=
    if loose_null (Item.quantity item) || isNaN_strict (Item.quantity item)
    then (errors ++ [msg_number])%list else errors in
  let errors :=
    if js_less (Item.quantity item) (jnum 0) then (errors ++ [msg_negative])%list else errors in
  errors.

(* ----------------------------------------------------------------- *)
(** *** String helpers: [toLowerCase], [includes], [join] *)

Definition lower_char (c : ascii) : ascii :=
  let n := nat_of_ascii c in
  if (Nat.leb 65 n && Nat.leb n 90)%bool then ascii_of_nat (n + 32) else c.

Definition toLowerCase (s : string) : string :=
  string_of_list_ascii (map lower_char (list_ascii_of_string s)).

Fixpoint is_prefix (p l : list ascii) : bool :=
  match p, l with
  | [], _ => true
  | x :: p', y :: l' => (x =? y)%char && is_prefix p' l'
  | _ :: _, [] => false
  end.

Fixpoint includes_l (hay q : list ascii) : bool :=
  is_prefix q hay ||
  match hay with [] => false | _ :: hay' => includes_l hay' q end.

(** [hay.includes(q)] *)
Definition includes (hay q : string) : bool :=
  includes_l (list_ascii_of_string hay) (list_ascii_of_string q).

(** [arr.join(sep)] on strings. *)
Fixpoint join (sep : string) (l : list string) : string :=
  match l with
  | [] => ""
  | [x] => x
  | x :: r => x ++ sep ++ join sep r
  end.

(** [arr.filter(Boolean)] on text fields: the non-empty strings. *)
Fixpoint filter_Boolean (l : list tv) : list string :=
  match l with
  | [] => []
  | TStr s :: r => if String.eqb s "" then filter_Boolean r else s :: filter_Boolean r
  | _ :: r => filter_Boolean r
  end.

(* ----------------------------------------------------------------- *)
(** *** [filter(items, filters)] *)

Module Filters.
Record t := mk {
  category : string;
  status : string;
  search : string;
  expiry : string;
  lowStock : string
}.
End Filters.

Definition haystack (i : Item.t) : string :=
  toLowerCase
    (join " " (filter_Boolean [Item.category i; Item.itemName i; Item.brand i;
                               Item.contentVolume i; Item.lotNumber i; Item.remarks i])).

(** The callback given to [items.filter]; [false] is each early
    [return false]. *)
Definition keep (tz now : Z) (filters : Filters.t) (i : Item.t) : bool :=
  if truthy (JStr (Filters.category filters)) &&
     negb (strict_eq (of_tv (Item.category i)) (JStr (Filters.category filters)))
  then false else
  if truthy (JStr (Filters.status filters)) &&
     negb (strict_eq (of_tv (Item.status i)) (JStr (Filters.status filters)))
  then false else
  if truthy (JStr (Filters.search filters)) &&
     negb (includes (haystack i) (toLowerCase (Filters.search filters)))
  then false else
  let expInfo := classifyExpiry tz now (of_tv (Item.expiryDate i)) in
  if String.eqb (Filters.expiry filters) "expired" && negb (String.eqb (code expInfo) "expired")
  then false else
  if String.eqb (Filters.expiry filters) "3months" && negb (String.eqb (code expInfo) "warning")
  then false else
  if String.eqb (Filters.expiry filters) "good" && negb (String.eqb (code expInfo) "good")
  then false else
  if String.eqb (Filters.lowStock filters) "low" && negb (js_le (Item.quantity i) (jnum 2))
  then false else
  true.

Definition filter (tz now : Z) (items : list Item.t) (filters : Filters.t) : list Item.t :=
  List.filter (keep tz now filters) items.

(* ----------------------------------------------------------------- *)
(** *** [sort(items, sortField, direction)] *)

(** The comparator passed to [Array.prototype.sort]. *)
Definition compare_items (sortField : string) (dir : Z) (a b : Item.t) : Z :=
  let av0 := field_get a sortField in
  let bv0 := field_get b sortField in
  let '(av, bv) :=
    if String.eqb sortField "quantity"
    then (JNum (ToNumber (nullish av0 (jnum 0))), JNum (ToNumber (nullish bv0 (jnum 0))))
    else (av0, bv0) in
  if includes (toLowerCase sortField) "date" then
    let a_t := match parse av with Some t => t | None => 0 end in
    let b_t := match parse bv with Some t => t | None => 0 end in
    if a_t =? b_t then 0 else if a_t >? b_t then dir else - dir
  else
    let av := match av with JStr s => JStr (toLowerCase s) | _ => av end in
    let bv := match bv with JStr s => JStr (toLowerCase s) | _ => bv end in
    if strict_eq av bv then 0 else if js_greater av bv then dir else - dir.

(** [Array.prototype.sort] is stable; it is modelled as insertion sort,
    which gives the result every stable sort gives for a consistent
    comparator: [x] goes after every earlier element not ordered after it. *)
Fixpoint insert_by (cmp : Item.t -> Item.t -> Z) (x : Item.t) (l : list Item.t)
  : list Item.t :=
  match l with
  | [] => [x]
  | y :: l' => if (cmp y x >? 0) then x :: y :: l' else y :: insert_by cmp x l'
  end.

Definition sort_by (cmp : Item.t -> Item.t -> Z) (l : list Item.t) : list Item.t :=
  fold_left (fun acc x => insert_by cmp x acc) l [].

(** The value [sort] returns. *)
Definition sort (items : list Item.t) (sortField direction : string) : list Item.t :=
  if negb (truthy (JStr sortField)) then items
  else
    let dir := if String.eqb direction "desc" then -1 else 1 in
    sort_by (compare_items sortField dir) items.

(* ----------------------------------------------------------------- *)
(** *** [computeAlerts(items)] *)

Record alerts := mkAlerts {
  expSoon : nat;
  expired : nat;
  outOfStock : nat;
  zeroQty : nat
}.

Definition alert_step (tz now : Z) (acc : alerts) (i : Item.t) : alerts :=
  let expInfo := classifyExpiry tz now (of_tv (Item.expiryDate i)) in
  let '(mkAlerts expSoon expired outOfStock zeroQty) := acc in
  let expired := if String.eqb (code expInfo) "expired" then S expired else expired in
  let expSoon := if String.eqb (code expInfo) "warning" then S expSoon else expSoon in
  let outOfStock :=
    if strict_eq (of_tv (Item.status i)) (JStr "Out of Stock") then S outOfStock else outOfStock in
  let zeroQty := if strict_eq (Item.quantity i) (jnum 0) then S zeroQty else zeroQty in
  mkAlerts expSoon expired outOfStock zeroQty.

Definition computeAlerts (tz now : Z) (items : list Item.t) : alerts :=
  fold_left (alert_step tz now) items (mkAlerts 0 0 0 0).

(* ----------------------------------------------------------------- *)
(** *** Arrays as shared objects

    [filter] and [sort] receive the array by reference.  A heap maps
    locations to arrays; [items.filter(...)] and [items.slice()] allocate
    a fresh array, [Array.prototype.sort] rewrites its receiver in place. *)

Abbreviation heap := (gmap nat (list Item.t)).

Definition alloc (h : heap) (v : list Item.t) : heap * nat :=
  let l := fresh (dom h) in (<[l := v]> h, l).

(** [arr.sort(cmp)] on the array at [l]. *)
Definition sort_in_place (h : heap) (l : nat) (cmp : Item.t -> Item.t -> Z) : heap :=
  match h !! l with
  | Some ys => <[l := sort_by cmp ys]> h
  | None => h
  end.

(** [InventoryService.filter] on the array at [items]; [None] when there
    is no array there (the call would throw). *)
Definition filter_h (tz now : Z) (h : heap) (items : nat) (filters : Filters.t)
  : option (heap * nat) :=
  match h !! items with
  | Some xs => Some (alloc h (filter tz now xs filters))
  | None => None
  end.

(** [InventoryService.sort] on the array at [items]. *)
Definition sort_h (h : heap) (items : nat) (sortField direction : string)
  : option (heap * nat) :=
  match h !! items with
  | None => None
  | Some xs =>
      if negb (truthy (JStr sortField)) then Some (alloc h xs)
      else
        let dir := if String.eqb direction "desc" then -1 else 1 in
        let '(h1, sorted) := alloc h xs in
        Some (sort_in_place h1 sorted (compare_items sortField dir), sorted)
  end.

(* ================================================================= *)
(** ** [InventoryRepository] *)

(** Outcome of a write request: accepted, answered with an [error], or
    the awaited call threw. *)
Inductive write_result := WOk | WError | WThrow.

(** Outcome of [select('*').order('expiry_date')]: the [data] returned. *)
Inductive select_result :=
| SOk (data : option (list Row.t))
| SError
| SThrow.

(** The backend client found on [window.supabaseClient]: how it answers
    each request given the current table. *)
Record client := mkClient {
  do_select : list Row.t -> select_result;
  do_upsert : list Row.t -> Row.t -> write_result;
  do_delete : list Row.t -> tv -> write_result
}.

(** The remote table and the console. *)
Record st := mkSt {
  rows : list Row.t;
  log : list string
}.

Definition log_msg (s : st) (m : string) : st := mkSt (rows s) (log s ++ [m])%list.

(** Insert-or-replace by primary key. *)
Fixpoint upsert_rows (r : Row.t) (l : list Row.t) : list Row.t :=
  match l with
  | [] => [r]
  | r' :: l' =>
      if strict_eq (of_tv (Row.id r')) (of_tv (Row.id r)) then r :: l'
      else r' :: upsert_rows r l'
  end.

Definition delete_rows (id : tv) (l : list Row.t) : list Row.t :=
  List.filter (fun r => negb (strict_eq (of_tv (Row.id r)) (of_tv id))) l.

Definition getClient (c : option client) (s : st) : st * option client :=
  match c with
  | None => (log_msg s "Supabase client not found on window.supabaseClient", None)
  | Some cl => (s, Some cl)
  end.

Definition load (c : option client) (s : st) : st * list Item.t :=
  let '(s, supabase) := getClient c s in
  match supabase with
  | None => (s, [])
  | Some cl =>
      match do_select cl (rows s) with
      | SOk data =>
          (s, map mapRowToItem (match data with Some d => d | None => [] end))
      | SError => (log_msg s "Failed to load inventory from Supabase", [])
      | SThrow => (log_msg s "Unexpected error loading inventory from Supabase", [])
      end
  end.

Definition upsert (c : option client) (s : st) (item : Item.t) : st * list Item.t :=
  let '(s, supabase) := getClient c s in
  match supabase with
  | None => (s, [])
  | Some cl =>
      let row := mapItemToRow item in
      let s :=
        match do_upsert cl (rows s) row with
        | WOk => mkSt (upsert_rows row (rows s)) (log s)
        | WError => log_msg s "Failed to upsert inventory item in Supabase"
        | WThrow => log_msg s "Unexpected error upserting inventory item in Supabase"
        end in
      load c s
  end.

Definition remove (c : option client) (s : st) (id : tv) : st * list Item.t :=
  let '(s, supabase) := getClient c s in
  match supabase with
  | None => (s, [])
  | Some cl =>
      let s :=
        match do_delete cl (rows s) id with
        | WOk => mkSt (delete_rows id (rows s)) (log s)
        | WError => log_msg s "Failed to delete inventory item in Supabase"
        | WThrow => log_msg s "Unexpected error deleting inventory item in Supabase"
        end in
      load c s
  end.

(* ================================================================= *)
(** ** [UI]: the controller state and its handlers

    The DOM is left out: each handler is modelled by what it reads from
    the page (form fields, the clicked column) and what it changes in
    [state], in the backend and in the messages shown to the user. *)

Module UIState.
Record t := mk {
  items : list Item.t;
  filters : Filters.t;
  sortField : string;
  sortDirection : string
}.
End UIState.

Definition initial_state : UIState.t :=
  UIState.mk [] (Filters.mk "" "" "" "" "") "expiryDate" "asc".

(** [handleSortClick] once the clicked [th[data-sort]] gives [field]. *)
Definition handleSortClick (state : UIState.t) (field : string) : UIState.t :=
  if String.eqb (UIState.sortField state) field then
    UIState.mk (UIState.items state) (UIState.filters state) field
      (if String.eqb (UIState.sortDirection state) "asc" then "desc" else "asc")
  else
    UIState.mk (UIState.items state) (UIState.filters state) field "asc".

(** [String.prototype.trim] on ASCII text: the white space it strips
    there is [is_ws]. *)
Definition trim (s : string) : string :=
  string_of_list_ascii (trim_ws (list_ascii_of_string s)).

(** [handleFilters]: each control is read by its [value]; [searchInput],
    [topSearchInput] and [filterCategory] may be missing from the page
    ([None]). The fields of [state.filters] are all overwritten; the
    renders that follow only draw. *)
Definition handleFilters (state : UIState.t)
    (searchInput topSearchInput filterCategory : option string)
    (filterStatus filterExpiry filterLowStock : string) : UIState.t :=
  let baseSearch := match searchInput with Some v => trim v | None => "" end in
  let topSearch := match topSearchInput with Some v => trim v | None => "" end in
  let search := trim (baseSearch ++ " " ++ topSearch) in
  let category := match filterCategory with Some v => v | None => "" end in
  UIState.mk (UIState.items state)
    (Filters.mk category filterStatus search filterExpiry filterLowStock)
    (UIState.sortField state) (UIState.sortDirection state).

Definition nl : string := String (ascii_of_nat 10) EmptyString.
Definition cr : string := String (ascii_of_nat 13) EmptyString.

(** The values [formData.get(...)] reads from the add form. *)
Module AddForm.
Record t := mk {
  category : string;
  itemName : string;
  brand : string;
  contentVolume : string;
  lotNumber : string;
  dateReceived : string;
  expiryDate : string;
  status : string;
  quantity : string
}.
End AddForm.

(** The values of the edit form's inputs. *)
Module EditForm.
Record t := mk {
  editId : string;
  editCategory : string;
  editItemName : string;
  editBrand : string;
  editContentVolume : string;
  editLotNumber : string;
  editDateReceived : string;
  editExpiryDate : string;
  editStatus : string;
  editQuantity : string
}.
End EditForm.

(** The payload [handleFormSubmit] builds (no id, no dateOpened). *)
Definition add_payload (f : AddForm.t) : Item.t :=
  {| Item.id := TUndef;
     Item.category := TStr (AddForm.category f);
     Item.itemName := TStr (AddForm.itemName f);
     Item.brand := TStr (AddForm.brand f);
     Item.contentVolume := TStr (AddForm.contentVolume f);
     Item.lotNumber := TStr (AddForm.lotNumber f);
     Item.dateReceived := TStr (AddForm.dateReceived f);
     Item.expiryDate := TStr (AddForm.expiryDate f);
     Item.dateOpened := TUndef;
     Item.status := TStr (AddForm.status f);
     Item.quantity := JNum (StringToNumber (AddForm.quantity f));
     Item.remarks := TStr "" |}.

(** The payload [handleEditSubmit] builds (no dateOpened). *)
Definition edit_payload (f : EditForm.t) : Item.t :=
  {| Item.id := TStr (EditForm.editId f);
     Item.category := tv_or (TStr (EditForm.editCategory f)) "";
     Item.itemName := TStr (EditForm.editItemName f);
     Item.brand := TStr (EditForm.editBrand f);
     Item.contentVolume := TStr (EditForm.editContentVolume f);
     Item.lotNumber := TStr (EditForm.editLotNumber f);
     Item.dateReceived := TStr (EditForm.editDateReceived f);
     Item.expiryDate := TStr (EditForm.editExpiryDate f);
     Item.dateOpened := TUndef;
     Item.status := TStr (EditForm.editStatus f);
     Item.quantity := JNum (StringToNumber (EditForm.editQuantity f));
     Item.remarks := TStr "" |}.

Definition fix_issues_message (errors : list string) : string :=
  "Please fix the following issues:" ++ nl ++ "- " ++ join (nl ++ "- ") errors.

(** The common body of [handleFormSubmit] and [handleEditSubmit]: build
    the item, validate it, and either [alert] the errors (returned as
    [Some message], nothing else changes) or upsert it and take the
    returned list as [state.items]. *)
Definition submit_item (c : option client) (s : st) (state : UIState.t)
    (payload : Item.t) (gen : string) : st * UIState.t * option string :=
  let item := createItem payload gen in
  let errors := validate item in
  if negb (length errors =? 0)%nat then (s, state, Some (fix_issues_message errors))
  else
    let '(s', items) := upsert c s item in
    (s', UIState.mk items (UIState.filters state) (UIState.sortField state)
           (UIState.sortDirection state), None).

Definition handleFormSubmit (c : option client) (s : st) (state : UIState.t)
    (f : AddForm.t) (gen : string) : st * UIState.t * option string :=
  submit_item c s state (add_payload f) gen.

Definition handleEditSubmit (c : option client) (s : st) (state : UIState.t)
    (f : EditForm.t) (gen : string) : st * UIState.t * option string :=
  submit_item c s state (edit_payload f) gen.

(** [renderAlerts]: the pills of the alert summary and the three KPI
    texts. *)
Record alert_view := mkAlertView {
  pills : list string;
  kpiExpSoon : string;
  kpiOutOrZero : string;
  kpiTotal : string
}.

Definition dq : string := String (ascii_of_nat 34) EmptyString.

(** [<span class="cls">] *)
Definition span_open (cls : string) : string := "<span class=" ++ dq ++ cls ++ dq ++ ">".

Definition nat_to_string (n : nat) : string := Z_to_string (Z.of_nat n).

Definition pill_expired (n : nat) : string :=
  span_open "pill pill--danger" ++ nat_to_string n ++ " expired item" ++
  (if (n =? 1)%nat then "" else "s") ++ "</span>".

Definition pill_expSoon (n : nat) : string :=
  span_open "pill pill--warning" ++ nat_to_string n ++ " expiring &le; 90 days</span>".

Definition pill_out (n : nat) : string :=
  span_open "pill pill--danger" ++ nat_to_string n ++ " out of stock / zero quantity</span>".

Definition pill_none : string :=
  span_open "pill pill--muted" ++ "No critical alerts</span>".

Definition renderAlerts (tz now : Z) (state : UIState.t) : alert_view :=
  let a := computeAlerts tz now (UIState.items state) in
  let pills : list string := [] in
  let pills :=
    if (0 <? expired a)%nat then (pills ++ [pill_expired (expired a)])%list else pills in
  let pills :=
    if (0 <? expSoon a)%nat then (pills ++ [pill_expSoon (expSoon a)])%list else pills in
  let pills :=
    if (0 <? outOfStock a)%nat || (0 <? zeroQty a)%nat
    then (pills ++ [pill_out (outOfStock a + zeroQty a)])%list else pills in
  let pills :=
    if (length pills =? 0)%nat then (pills ++ [pill_none])%list else pills in
  mkAlertView pills (nat_to_string (expSoon a))
    (nat_to_string (outOfStock a + zeroQty a))
    (nat_to_string (length (UIState.items state))).

(** [exportCsv] *)

Definition export_empty_msg : string :=
  "No inventory data to export for the current view.".

Definition csv_header : list string :=
  ["Category"; "Item Name"; "Brand / Supplier"; "Content Volume"; "Lot Number";
   "Date Received"; "Expiry Date"; "Date Opened"; "Status"; "Quantity Remaining";
   "Remarks"; "Expiry Status"].

(** [String(v)]; [nts] is Number::toString, which the statements below do
    not depend on. *)
Definition js_String (nts : num -> string) (v : jsval) : string :=
  match v with
  | JUndef => "undefined"
  | JNull => "null"
  | JBool b => if b then "true" else "false"
  | JNum n => nts n
  | JStr s => s
  end.

Definition dq_char : ascii := ascii_of_nat 34.
Definition nl_char : ascii := ascii_of_nat 10.
Definition cr_char : ascii := ascii_of_nat 13.

(** [s.replace(/\n/g, ' ')] *)
Fixpoint replace_nl (s : string) : string :=
  match s with
  | EmptyString => EmptyString
  | String c r => String (if (c =? nl_char)%char then " "%char else c) (replace_nl r)
  end.

(** [s.replace] of every double-quote character by two of them. *)
Fixpoint escape_dq (s : string) : string :=
  match s with
  | EmptyString => EmptyString
  | String c r =>
      if (c =? dq_char)%char then String dq_char (String dq_char (escape_dq r))
      else String c (escape_dq r)
  end.

(** The twelve values of an item's CSV row, as text fields: category,
    itemName and status are taken as they are (they may be null or
    undefined), the others are strings. *)
Definition csv_values (tz now : Z) (nts : num -> string) (item : Item.t) : list tv :=
  [Item.category item;
   Item.itemName item;
   tv_or (Item.brand item) "";
   tv_or (Item.contentVolume item) "";
   tv_or (Item.lotNumber item) "";
   TStr (format tz (of_tv (Item.dateReceived item)));
   TStr (format tz (of_tv (Item.expiryDate item)));
   TStr (format tz (of_tv (Item.dateOpened item)));
   Item.status item;
   TStr (js_String nts (Item.quantity item));
   match tv_or (Item.remarks item) "" with TStr r => TStr (replace_nl r) | v => v end;
   TStr (label (classifyExpiry tz now (of_tv (Item.expiryDate item))))].

(** The quoted cell: [escape_dq value] between two double-quote
    characters; [None] is the TypeError [value.replace] throws when [value]
    is null or undefined. *)
Definition quote_cell (v : tv) : option string :=
  match v with
  | TStr s => Some (dq ++ escape_dq s ++ dq)
  | _ => None
  end.

Fixpoint all_some {A : Type} (l : list (option A)) : option (list A) :=
  match l with
  | [] => Some []
  | None :: _ => None
  | Some x :: r => match all_some r with Some xs => Some (x :: xs) | None => None end
  end.

Definition csv_line (row : list tv) : option string :=
  match all_some (map quote_cell row) with
  | Some cells => Some (join "," cells)
  | None => None
  end.

Definition crlf : string := cr ++ nl.

(** [String(n).padStart(k, '0')] for [n >= 0]. *)
Definition padZ (k : nat) (n : Z) : string :=
  let s := Z_to_string n in
  string_of_list_ascii (repeat "0"%char (k - String.length s)) ++ s.

(** [new Date(now).toISOString().slice(0, 19).replace(/[:T]/g, '-')]: the
    UTC date and time with every separator a dash (years outside
    0..9999 are written with a sign and six digits). *)
Definition iso_ts (now : Z) : string :=
  let '(y, m, d) := civil_from_days (now / msPerDay) in
  let ms := now mod msPerDay in
  let year :=
    if ((0 <=? y) && (y <=? 9999))%Z then padZ 4 y
    else (if (y <? 0)%Z then "-" else "+") ++ padZ 6 (Z.abs y) in
  year ++ "-" ++ padZ 2 m ++ "-" ++ padZ 2 d ++ "-" ++ padZ 2 (ms / 3600000) ++ "-" ++
  padZ 2 (ms / 60000 mod 60) ++ "-" ++ padZ 2 (ms / 1000 mod 60).

Inductive export_result :=
| ExportAlert (msg : string)
| ExportThrows
| ExportDownload (filename : string) (csv : string).

(** [exportCsv]: the rows shown in the table, then the alert, the
    TypeError, or the downloaded file. *)
Definition exportCsv (tz now : Z) (nts : num -> string) (state : UIState.t) : export_result :=
  let filtered := filter tz now (UIState.items state) (UIState.filters state) in
  let sorted := sort filtered (UIState.sortField state) (UIState.sortDirection state) in
  if (length sorted =? 0)%nat then ExportAlert export_empty_msg
  else
    let rows := map (csv_values tz now nts) sorted in
    match all_some (map csv_line (map TStr csv_header :: rows)) with
    | None => ExportThrows
    | Some lines =>
        ExportDownload ("north-med-reagent-inventory-" ++ iso_ts now ++ ".csv")
          (join crlf lines)
    end.

(* ================================================================= *)
(** ** Sample data used by the concrete statements *)

Definition blank : Item.t :=
  Item.mk TUndef TUndef TUndef TUndef TUndef TUndef TUndef TUndef TUndef TUndef JUndef TUndef.

(** An item with the given name, expiry date, quantity and status. *)
Definition sample (name expiry : string) (q : Z) (status : string) : Item.t :=
  Item.mk (TStr name) (TStr "Chemistry") (TStr name) (TStr "") (TStr "") (TStr "")
    (TStr "") (TStr expiry) (TStr "") (TStr status) (jnum q) (TStr "").

(** The C2 input [{category:'', itemName:'', expiryDate:'', quantity:'abc'}]. *)
Definition bad_input : Item.t :=
  Item.mk TUndef (TStr "") (TStr "") TUndef TUndef TUndef TUndef (TStr "") TUndef TUndef
    (JStr "abc") TUndef.

(** Noon UTC on 2026-10-15. *)
Definition noon_2026_10_15 : Z := days_from_civil 2026 10 15 * msPerDay + 43200000.

Definition no_filters : Filters.t := Filters.mk "" "" "" "" "".

(** A view whose first item name holds a double quote and a comma. *)
Definition export_state : UIState.t :=
  UIState.mk [sample ("Anti " ++ dq ++ "Sera" ++ dq ++ ", A")%string "2026-11-01" 2 "Unopened";
              sample "Urea" "2020-01-01" 0 "Out of Stock"]
    (Filters.mk "" "" "" "" "") "expiryDate" "asc".

(** A backend that answers reads with its table and refuses every write. *)
Definition rejecting_client : client :=
  mkClient (fun r => SOk (Some r)) (fun _ _ => WError) (fun _ _ => WThrow).

(* ================================================================= *)
(** ** Facts about the helpers *)

Open Scope list_scope.

Lemma setHours0_eq (tz t : Z) :
  setHours0 tz t = (t + tz) / msPerDay * msPerDay - tz.
Proof. reflexivity. Qed.

(** The rounded difference of two local midnights is exact. *)
Lemma daysBetween_midnights (tz from to : Z) :
  daysBetween tz from to = (to + tz) / msPerDay - (from + tz) / msPerDay.
Proof.
  unfold daysBetween, round_div, setHours0.
  set (a := (to + tz) / msPerDay). set (b := (from + tz) / msPerDay).
  replace (2 * (a * msPerDay - tz - (b * msPerDay - tz)) + msPerDay)
    with ((a - b) * (2 * msPerDay) + msPerDay) by ring.
  rewrite Z.div_add_l by (unfold msPerDay; lia).
  rewrite (Z.div_small msPerDay) by (unfold msPerDay; lia). lia.
Qed.

Definition missing (x : tv) : Prop := x = TUndef \/ x = TNull \/ x = TStr "".

Lemma truthy_tv_false (x : tv) : truthy (of_tv x) = false <-> missing x.
Proof.
  unfold missing; destruct x as [| |s]; simpl; split; intros H;
    try (intuition congruence).
  - right; right. apply negb_false_iff, String.eqb_eq in H. now subst.
  - destruct H as [H|[H|H]]; try discriminate. inversion H; subst. reflexivity.
Qed.

Lemma truthy_str (s : string) : truthy (JStr s) = negb (String.eqb s "").
Proof. reflexivity. Qed.

Lemma strict_eq_tv_str (x : tv) (s : string) :
  strict_eq (of_tv x) (JStr s) = true <-> x = TStr s.
Proof.
  destruct x as [| |t]; simpl; split; intros H; try discriminate.
  - apply String.eqb_eq in H. now subst.
  - inversion H; subst. apply String.eqb_refl.
Qed.

Lemma is_prefix_spec (p l : list ascii) :
  is_prefix p l = true <-> exists post, l = (p ++ post)%list.
Proof.
  revert l; induction p as [|x p IH]; intros l; simpl.
  - split; eauto.
  - destruct l as [|y l].
    + split; [discriminate|]. intros [post H]; discriminate.
    + rewrite andb_true_iff, IH. split.
      * intros [Hxy [post ->]]. apply Ascii.eqb_eq in Hxy. subst. eauto.
      * intros [post H]. inversion H; subst. split; [apply Ascii.eqb_refl|eauto].
Qed.

Lemma includes_l_spec (hay q : list ascii) :
  includes_l hay q = true <-> exists pre post, hay = (pre ++ q ++ post)%list.
Proof.
  induction hay as [|c hay IH]; simpl; rewrite orb_true_iff, is_prefix_spec.
  - split.
    + intros [[post H]|H]; [|discriminate]. exists [], post. exact H.
    + intros [pre [post H]]. left. exists post.
      destruct pre; [exact H|discriminate].
  - rewrite IH. split.
    + intros [[post H]|[pre [post H]]].
      * exists [], post. exact H.
      * exists (c :: pre), post. simpl. now rewrite H.
    + intros [pre [post H]]. destruct pre as [|c' pre].
      * left. exists post. exact H.
      * right. inversion H; subst. eauto.
Qed.

Lemma toLowerCase_chars (s : string) :
  list_ascii_of_string (toLowerCase s) = map lower_char (list_ascii_of_string s).
Proof. unfold toLowerCase. apply list_ascii_of_string_of_list_ascii. Qed.

(* ================================================================= *)
(** ** Claims *)

(** C1. [classifyExpiry] returns code [none] with days [null] when the date
    is absent or unparseable; otherwise its days field is the difference of
    the two local midnights in whole days, and the code is [expired] below
    0, [warning] on [0, 90] and [good] above 90. *)
Theorem classifyExpiry_spec (tz now : Z) (v : jsval) :
  (parse v = None ->
     code (classifyExpiry tz now v) = "none" /\ days (classifyExpiry tz now v) = None) /\
  (forall e, parse v = Some e ->
     let d := daysBetween tz now e in
     d = (e + tz) / msPerDay - (now + tz) / msPerDay /\
     days (classifyExpiry tz now v) = Some d /\
     (d < 0 -> code (classifyExpiry tz now v) = "expired") /\
     (0 <= d <= 90 -> code (classifyExpiry tz now v) = "warning") /\
     (90 < d -> code (classifyExpiry tz now v) = "good")).
Proof.
  unfold classifyExpiry. split.
  - intros H. rewrite H. split; reflexivity.
  - intros e H. rewrite H. cbv zeta.
    set (d := daysBetween tz now e).
    split; [apply daysBetween_midnights|].
    destruct (Z.ltb_spec d 0) as [Hlt|Hge];
      [|destruct (Z.leb_spec d 90) as [Hle|Hgt]]; simpl;
      repeat split; intros; try reflexivity; lia.
Qed.

(** Boundary days at a fixed clock: [2026-10-15] noon UTC, offset 0. *)
Lemma classifyExpiry_boundaries :
  code (classifyExpiry 0 noon_2026_10_15 (JStr "2026-10-15")) = "warning" /\
  code (classifyExpiry 0 noon_2026_10_15 (JStr "2027-01-13")) = "warning" /\
  code (classifyExpiry 0 noon_2026_10_15 (JStr "2027-01-14")) = "good" /\
  code (classifyExpiry 0 noon_2026_10_15 (JStr "2026-10-14")) = "expired" /\
  days (classifyExpiry 0 noon_2026_10_15 (JStr "2027-01-13")) = Some 90.
Proof. vm_compute. repeat split. Qed.

(** C2 (counterexample). On [{category:'', itemName:'', expiryDate:'',
    quantity:'abc'}] [validate] does not return the four messages. *)
Lemma validate_abc_not_four :
  validate bad_input <> [msg_category; msg_itemName; msg_expiry; msg_number].
Proof. vm_compute. discriminate. Qed.

Definition validate_order : list string :=
  [msg_category; msg_itemName; msg_expiry; msg_number; msg_negative].

(** C2 (amended). On that object [validate] returns the three messages for
    category, itemName and expiryDate: [Number.isNaN] does not coerce, so
    the numeric rule fires only for a quantity that is [undefined], [null]
    or the number NaN (as [createItem] makes of ['abc'], giving four
    messages).  In general [validate] returns every violated rule, in the
    order category, itemName, expiryDate, numeric, non-negative. *)
Theorem validate_spec :
  validate bad_input = [msg_category; msg_itemName; msg_expiry] /\
  validate (createItem bad_input "itm-0") =
    [msg_category; msg_itemName; msg_expiry; msg_number] /\
  forall item : Item.t,
    validate item =
      List.filter (fun m => existsb (String.eqb m) (validate item)) validate_order /\
    (In msg_category (validate item) <-> missing (Item.category item)) /\
    (In msg_itemName (validate item) <-> missing (Item.itemName item)) /\
    (In msg_expiry (validate item) <-> missing (Item.expiryDate item)) /\
    (In msg_number (validate item) <->
       Item.quantity item = JUndef \/ Item.quantity item = JNull \/
       Item.quantity item = JNum NaN) /\
    (In msg_negative (validate item) <-> js_less (Item.quantity item) (jnum 0) = true).
Proof.
  split; [vm_compute; reflexivity|]. split; [vm_compute; reflexivity|].
  intros item. unfold validate.
  rewrite <- !truthy_tv_false.
  assert (Hnum : loose_null (Item.quantity item) || isNaN_strict (Item.quantity item) = true
            <-> Item.quantity item = JUndef \/ Item.quantity item = JNull \/
                Item.quantity item = JNum NaN).
  { destruct (Item.quantity item) as [| |b|[| | |q]|s]; simpl;
      intuition discriminate. }
  rewrite <- Hnum.
  destruct (truthy (of_tv (Item.category item)));
  destruct (truthy (of_tv (Item.itemName item)));
  destruct (truthy (of_tv (Item.expiryDate item)));
  destruct (loose_null (Item.quantity item) || isNaN_strict (Item.quantity item));
  destruct (js_less (Item.quantity item) (jnum 0));
  vm_compute; intuition (try discriminate; try congruence).
Qed.

Lemma in_validate_number (item : Item.t) :
  In msg_number (validate item) <->
  Item.quantity item = JUndef \/ Item.quantity item = JNull \/ Item.quantity item = JNum NaN.
Proof.
  unfold validate.
  assert (Hnum : loose_null (Item.quantity item) || isNaN_strict (Item.quantity item) = true
            <-> Item.quantity item = JUndef \/ Item.quantity item = JNull \/
                Item.quantity item = JNum NaN).
  { destruct (Item.quantity item) as [| |b|[| | |q]|s]; simpl;
      intuition discriminate. }
  rewrite <- Hnum.
  destruct (truthy (of_tv (Item.category item)));
  destruct (truthy (of_tv (Item.itemName item)));
  destruct (truthy (of_tv (Item.expiryDate item)));
  destruct (loose_null (Item.quantity item) || isNaN_strict (Item.quantity item));
  destruct (js_less (Item.quantity item) (jnum 0));
  vm_compute; intuition (try discriminate; try congruence).
Qed.

(** C10. [createItem] stores [Number(payload.quantity ?? 0)]: 0 when the
    quantity is absent, the number NaN for a non-numeric string, so the
    numeric rule of [validate] fires on such an item; a raw string quantity
    given to [validate] directly never triggers that rule. *)
Theorem createItem_quantity_spec (payload : Item.t) (gen : string) :
  Item.quantity (createItem payload gen) =
    JNum (ToNumber (nullish (Item.quantity payload) (jnum 0))) /\
  ((Item.quantity payload = JUndef \/ Item.quantity payload = JNull) ->
     Item.quantity (createItem payload gen) = jnum 0) /\
  (forall s, Item.quantity payload = JStr s -> StringToNumber s = NaN ->
     Item.quantity (createItem payload gen) = JNum NaN /\
     In msg_number (validate (createItem payload gen))) /\
  (forall (it : Item.t) (s : string), Item.quantity it = JStr s ->
     ~ In msg_number (validate it)) /\
  StringToNumber "abc" = NaN.
Proof.
  split; [reflexivity|]. split.
  { intros [H|H]; simpl; rewrite H; reflexivity. }
  split.
  { intros s Hq Hs. assert (Hc : Item.quantity (createItem payload gen) = JNum NaN).
    { simpl. rewrite Hq. simpl. now rewrite Hs. }
    split; [exact Hc|]. apply in_validate_number. now right; right. }
  split; [|reflexivity].
  intros it s Hq Hin. apply in_validate_number in Hin.
  rewrite Hq in Hin. intuition discriminate.
Qed.

(* ----------------------------------------------------------------- *)
(** *** Filter criteria, stated one by one *)

(** The expiry bucket each value of the expiry criterion selects. *)
Definition expiry_bucket (e : string) : option string :=
  if String.eqb e "expired" then Some "expired"
  else if String.eqb e "3months" then Some "warning"
  else if String.eqb e "good" then Some "good"
  else None.

Definition search_fields (i : Item.t) : list tv :=
  [Item.category i; Item.itemName i; Item.brand i; Item.contentVolume i;
   Item.lotNumber i; Item.remarks i].

(** Case-insensitive substring of the space-joined non-empty fields. *)
Definition search_ok (f : Filters.t) (i : Item.t) : Prop :=
  Filters.search f = "" \/
  exists pre post,
    map lower_char (list_ascii_of_string (join " " (filter_Boolean (search_fields i)))) =
    (pre ++ map lower_char (list_ascii_of_string (Filters.search f)) ++ post)%list.

Definition passes (tz now : Z) (f : Filters.t) (i : Item.t) : Prop :=
  (Filters.category f = "" \/ Item.category i = TStr (Filters.category f)) /\
  (Filters.status f = "" \/ Item.status i = TStr (Filters.status f)) /\
  search_ok f i /\
  match expiry_bucket (Filters.expiry f) with
  | Some c => code (classifyExpiry tz now (of_tv (Item.expiryDate i))) = c
  | None => True
  end /\
  (Filters.lowStock f <> "low" \/ js_le (Item.quantity i) (jnum 2) = true).

Definition with_expiry (f : Filters.t) (e : string) : Filters.t :=
  Filters.mk (Filters.category f) (Filters.status f) (Filters.search f) e
    (Filters.lowStock f).

Lemma if_false_else (a b : bool) : (if a then false else b) = negb a && b.
Proof. now destruct a. Qed.

Lemma crit_exact (c : string) (x : tv) :
  negb (truthy (JStr c) && negb (strict_eq (of_tv x) (JStr c))) = true <->
  c = "" \/ x = TStr c.
Proof.
  rewrite truthy_str. destruct (String.eqb_spec c "") as [->|Hc]; simpl.
  - intuition.
  - rewrite negb_involutive, strict_eq_tv_str. intuition.
Qed.

Lemma crit_search (q : string) (i : Item.t) :
  negb (truthy (JStr q) && negb (includes (haystack i) (toLowerCase q))) = true <->
  search_ok (Filters.mk "" "" q "" "") i.
Proof.
  unfold search_ok; cbn [Filters.search]. rewrite truthy_str.
  destruct (String.eqb_spec q "") as [->|Hq]; cbn [negb andb].
  - intuition.
  - rewrite negb_involutive. unfold includes, haystack.
    rewrite includes_l_spec, !toLowerCase_chars. unfold search_fields. intuition.
Qed.

Lemma crit_expiry (e c : string) :
  negb (String.eqb e "expired" && negb (String.eqb c "expired")) &&
  negb (String.eqb e "3months" && negb (String.eqb c "warning")) &&
  negb (String.eqb e "good" && negb (String.eqb c "good")) = true <->
  match expiry_bucket e with Some c' => c = c' | None => True end.
Proof.
  unfold expiry_bucket.
  destruct (String.eqb_spec e "expired") as [->|H1]; cbn;
    [destruct (String.eqb_spec c "expired"); cbn; split; intros; congruence|].
  destruct (String.eqb_spec e "3months") as [->|H2]; cbn;
    [destruct (String.eqb_spec c "warning"); cbn; split; intros; congruence|].
  destruct (String.eqb_spec e "good") as [->|H3]; cbn;
    [destruct (String.eqb_spec c "good"); cbn; split; intros; congruence|].
  split; intros; reflexivity.
Qed.

Lemma crit_low (s : string) (q : jsval) :
  negb (String.eqb s "low" && negb (js_le q (jnum 2))) = true <->
  s <> "low" \/ js_le q (jnum 2) = true.
Proof.
  destruct (String.eqb_spec s "low") as [->|Hs]; simpl.
  - rewrite negb_involutive. intuition.
  - intuition.
Qed.

Lemma keep_spec (tz now : Z) (f : Filters.t) (i : Item.t) :
  keep tz now f i = true <-> passes tz now f i.
Proof.
  unfold keep. cbv zeta. rewrite !if_false_else, !andb_true_iff.
  unfold passes.
  rewrite crit_exact, crit_exact.
  pose proof (crit_search (Filters.search f) i) as Hs.
  unfold search_ok in Hs |- *; simpl in Hs. rewrite Hs.
  rewrite crit_low.
  pose proof (crit_expiry (Filters.expiry f)
                (code (classifyExpiry tz now (of_tv (Item.expiryDate i))))) as He.
  rewrite !andb_true_iff in He. rewrite <- He.
  intuition.
Qed.

Lemma filter_spec (tz now : Z) (items : list Item.t) (f : Filters.t) (i : Item.t) :
  In i (filter tz now items f) <-> In i items /\ passes tz now f i.
Proof. unfold filter. rewrite filter_In, keep_spec. reflexivity. Qed.

Lemma filter_all (tz now : Z) (items : list Item.t) (f : Filters.t) :
  (forall i, In i items -> keep tz now f i = true) -> filter tz now items f = items.
Proof.
  unfold filter. induction items as [|x l IH]; intros H; simpl; [reflexivity|].
  rewrite H by (left; reflexivity). f_equal. apply IH. intros; apply H; now right.
Qed.

(** C3 (counterexample). With the expiry criterion set to ['warning'] an
    item classified [good] still passes: ['warning'] selects no bucket. *)
Lemma filter_warning_keeps_good :
  let it := sample "Glucose" "2030-01-01" 3 "Unopened" in
  In it (filter 0 noon_2026_10_15 [it] (Filters.mk "" "" "" "warning" "")) /\
  code (classifyExpiry 0 noon_2026_10_15 (of_tv (Item.expiryDate it))) = "good".
Proof. vm_compute. split; [left; reflexivity | reflexivity]. Qed.

(** C3 (amended). The expiry criterion values ['expired'], ['3months'] and
    ['good'] keep exactly the items classified [expired], [warning] and
    [good] among those the other criteria keep; any other value (['warning']
    included) adds no expiry constraint. *)
Theorem filter_expiry_spec (tz now : Z) (items : list Item.t) (f : Filters.t) (i : Item.t) :
  (In i (filter tz now items f) <->
   In i (filter tz now items (with_expiry f "")) /\
   match expiry_bucket (Filters.expiry f) with
   | Some c => code (classifyExpiry tz now (of_tv (Item.expiryDate i))) = c
   | None => True
   end) /\
  expiry_bucket "expired" = Some "expired" /\
  expiry_bucket "3months" = Some "warning" /\
  expiry_bucket "good" = Some "good" /\
  expiry_bucket "warning" = None.
Proof.
  split; [|repeat split].
  rewrite !filter_spec. unfold passes. destruct f as [c s q e l]; cbn.
  intuition.
Qed.

(** C4. An item is in [filter]'s output iff it is in the input and meets
    every active criterion: exact category, exact status, case-insensitive
    substring of the joined non-empty text fields, the expiry bucket, and
    [quantity <= 2] when [lowStock] is ['low']; with every criterion unset
    all items pass, in order. *)
Theorem filter_criteria_spec (tz now : Z) (items : list Item.t) :
  (forall (f : Filters.t) (i : Item.t),
     In i (filter tz now items f) <-> In i items /\ passes tz now f i) /\
  filter tz now items no_filters = items.
Proof.
  split.
  - intros f i. apply filter_spec.
  - apply filter_all. intros i _. reflexivity.
Qed.

(* ----------------------------------------------------------------- *)
(** *** Allocation facts *)

Lemma alloc_spec (h : heap) (v : list Item.t) (h' : heap) (l' : nat) :
  alloc h v = (h', l') ->
  h' !! l' = Some v /\
  forall k w, h !! k = Some w -> h' !! k = Some w /\ k <> l'.
Proof.
  unfold alloc. intros E. inversion E; subst; clear E.
  split; [apply lookup_insert_eq|].
  intros k w Hk.
  assert (Hne : k <> fresh (dom h)).
  { intros ->. apply (is_fresh (dom h)). apply elem_of_dom. eauto. }
  split; [|exact Hne].
  rewrite lookup_insert_ne by congruence. exact Hk.
Qed.

Lemma sort_h_spec (h : heap) (l : nat) (xs : list Item.t) (field dir : string)
    (h' : heap) (l' : nat) :
  h !! l = Some xs -> sort_h h l field dir = Some (h', l') ->
  h' !! l' = Some (sort xs field dir) /\
  forall k w, h !! k = Some w -> h' !! k = Some w /\ k <> l'.
Proof.
  intros Hl. unfold sort_h, sort. rewrite Hl.
  destruct (negb (truthy (JStr field))).
  - intros E. inversion E; subst. apply alloc_spec.
    destruct (alloc h xs); congruence.
  - destruct (alloc h xs) as [h1 l1] eqn:Ea. intros E. inversion E; subst; clear E.
    destruct (alloc_spec _ _ _ _ Ea) as [H1 Hold].
    unfold sort_in_place. rewrite H1. split; [apply lookup_insert_eq|].
    intros k w Hk. destruct (Hold k w Hk) as [Hk1 Hne].
    split; [|exact Hne]. rewrite lookup_insert_ne by congruence. exact Hk1.
Qed.

Lemma filter_h_spec (tz now : Z) (h : heap) (l : nat) (xs : list Item.t) (f : Filters.t)
    (h' : heap) (l' : nat) :
  h !! l = Some xs -> filter_h tz now h l f = Some (h', l') ->
  h' !! l' = Some (filter tz now xs f) /\
  forall k w, h !! k = Some w -> h' !! k = Some w /\ k <> l'.
Proof.
  intros Hl. unfold filter_h. rewrite Hl. intros E. inversion E; subst.
  apply alloc_spec. destruct (alloc h (filter tz now xs f)); congruence.
Qed.

(** C5. For the array at [l]: [filter] with no criteria followed by [sort]
    with no field yields a new array with the same items in the same order;
    [filter] and [sort] (any field) leave the input array as it was and
    return a different array, and [sort] with no field is a copy. *)
Theorem filter_sort_identity (tz now : Z) (h : heap) (l : nat) (xs : list Item.t)
    (Hl : h !! l = Some xs) :
  (exists h1 l1 h2 l2,
     filter_h tz now h l no_filters = Some (h1, l1) /\
     sort_h h1 l1 "" "asc" = Some (h2, l2) /\
     h2 !! l2 = Some xs /\ h2 !! l = Some xs /\ l2 <> l) /\
  (forall f h' l', filter_h tz now h l f = Some (h', l') ->
     h' !! l = Some xs /\ l' <> l) /\
  (forall field dir h' l', sort_h h l field dir = Some (h', l') ->
     h' !! l = Some xs /\ l' <> l) /\
  (forall dir h' l', sort_h h l "" dir = Some (h', l') -> h' !! l' = Some xs).
Proof.
  split; [|split; [|split]].
  - destruct (filter_h tz now h l no_filters) as [[h1 l1]|] eqn:Ef;
      [|unfold filter_h in Ef; rewrite Hl in Ef; discriminate].
    destruct (filter_h_spec _ _ _ _ _ _ _ _ Hl Ef) as [H1 Hold1].
    rewrite (filter_all tz now xs no_filters (fun i _ => eq_refl)) in H1.
    destruct (sort_h h1 l1 "" "asc") as [[h2 l2]|] eqn:Es;
      [|unfold sort_h in Es; rewrite H1 in Es; discriminate].
    destruct (sort_h_spec _ _ _ _ _ _ _ H1 Es) as [H2 Hold2].
    destruct (Hold1 l xs Hl) as [Hl1 _].
    destruct (Hold2 l xs Hl1) as [Hl2 Hne].
    exists h1, l1, h2, l2. repeat split; auto; congruence.
  - intros f h' l' E. destruct (filter_h_spec _ _ _ _ _ _ _ _ Hl E) as [_ Hold].
    destruct (Hold l xs Hl); split; congruence.
  - intros field dir h' l' E. destruct (sort_h_spec _ _ _ _ _ _ _ Hl E) as [_ Hold].
    destruct (Hold l xs Hl); split; congruence.
  - intros dir h' l' E. destruct (sort_h_spec _ _ _ _ _ _ _ Hl E) as [H _].
    exact H.
Qed.

Lemma filter_sort_identity_witness :
  let h := (<[3%nat := [sample "Glucose" "2030-01-01" 3 "Unopened"]]> (∅ : heap)) in
  h !! 3%nat = Some [sample "Glucose" "2030-01-01" 3 "Unopened"] /\
  exists h1 l1 h2 l2,
    filter_h 0 noon_2026_10_15 h 3 no_filters = Some (h1, l1) /\
    sort_h h1 l1 "" "asc" = Some (h2, l2) /\
    h2 !! l2 = Some [sample "Glucose" "2030-01-01" 3 "Unopened"] /\
    h2 !! 3%nat = Some [sample "Glucose" "2030-01-01" 3 "Unopened"] /\ l2 <> 3%nat.
Proof.
  intros h.
  assert (Hl : h !! 3%nat = Some [sample "Glucose" "2030-01-01" 3 "Unopened"])
    by reflexivity.
  split; [exact Hl|].
  exact (proj1 (filter_sort_identity 0 noon_2026_10_15 h 3 _ Hl)).
Defined.

(* ----------------------------------------------------------------- *)
(** *** Sorting on a date field *)

(** The ordering key of a date field: the parsed time, epoch when absent. *)
Definition date_key (field : string) (i : Item.t) : Z :=
  match parse (field_get i field) with Some t => t | None => 0 end.

Definition unparseable (field : string) (i : Item.t) : bool :=
  match parse (field_get i field) with None => true | Some _ => false end.

Definition after_epoch (field : string) (i : Item.t) : Prop :=
  exists t, parse (field_get i field) = Some t /\ 0 < t.

Lemma compare_date_field (field : string) (dir : Z) (a b : Item.t) :
  includes (toLowerCase field) "date" = true ->
  compare_items field dir a b =
    if date_key field a =? date_key field b then 0
    else if date_key field a >? date_key field b then dir else - dir.
Proof.
  intros Hd. unfold compare_items.
  destruct (String.eqb_spec field "quantity") as [->|Hq];
    [vm_compute in Hd; discriminate|].
  rewrite Hd. reflexivity.
Qed.

Lemma insert_skip (cmp : Item.t -> Item.t -> Z) (x : Item.t) (us r : list Item.t) :
  (forall y, In y us -> cmp y x <= 0) ->
  insert_by cmp x (us ++ r) = (us ++ insert_by cmp x r)%list.
Proof.
  induction us as [|y us IH]; intros H; simpl; [reflexivity|].
  assert (Hy : cmp y x <= 0) by (apply H; left; reflexivity).
  destruct (Z.gtb_spec (cmp y x) 0) as [Hgt|_]; [lia|].
  f_equal. apply IH. intros z Hz. apply H. now right.
Qed.

Lemma insert_Forall (Q : Item.t -> Prop) (cmp : Item.t -> Item.t -> Z) (x : Item.t)
    (l : list Item.t) :
  Q x -> Forall Q l -> Forall Q (insert_by cmp x l).
Proof.
  intros Hx; induction l as [|y l IH]; intros Hl; simpl.
  - constructor; [exact Hx|constructor].
  - inversion Hl; subst.
    destruct (cmp y x >? 0); repeat constructor; auto.
Qed.

Lemma sort_epoch_aux (field : string) (Hd : includes (toLowerCase field) "date" = true) :
  forall (l us rest : list Item.t),
  Forall (fun y => unparseable field y = true) us ->
  Forall (after_epoch field) rest ->
  Forall (fun x => unparseable field x = true \/ after_epoch field x) l ->
  exists rest',
    fold_left (fun acc x => insert_by (compare_items field 1) x acc) l (us ++ rest) =
      (us ++ List.filter (unparseable field) l ++ rest')%list /\
    Forall (after_epoch field) rest'.
Proof.
  assert (Hkey0 : forall y, unparseable field y = true -> date_key field y = 0).
  { intros y. unfold unparseable, date_key. destruct (parse (field_get y field)); congruence. }
  assert (Hkeyp : forall y, after_epoch field y -> 0 < date_key field y).
  { intros y [t [Ht Hpos]]. unfold date_key. now rewrite Ht. }
  assert (Hunp : forall y, after_epoch field y -> unparseable field y = false).
  { intros y [t [Ht _]]. unfold unparseable. now rewrite Ht. }
  induction l as [|x l IH]; intros us rest Hus Hrest Hl.
  - exists rest. split; [reflexivity|exact Hrest].
  - inversion Hl as [|? ? Hx Hl']; subst. simpl.
    assert (Hskip : forall y, In y us -> compare_items field 1 y x <= 0).
    { intros y Hy. rewrite compare_date_field by exact Hd.
      rewrite (Hkey0 y) by (exact (proj1 (List.Forall_forall _ _) Hus y Hy)).
      destruct Hx as [Hx|Hx].
      - rewrite (Hkey0 x Hx). simpl. lia.
      - pose proof (Hkeyp x Hx).
        destruct (Z.eqb_spec 0 (date_key field x)); [lia|].
        destruct (Z.gtb_spec 0 (date_key field x)); lia. }
    rewrite insert_skip by exact Hskip.
    destruct Hx as [Hx|Hx].
    + assert (Hins : insert_by (compare_items field 1) x rest = x :: rest).
      { destruct rest as [|y rest]; [reflexivity|]. simpl.
        inversion Hrest as [|? ? Hy _]; subst.
        rewrite compare_date_field by exact Hd.
        pose proof (Hkeyp y Hy). rewrite (Hkey0 x Hx).
        destruct (Z.eqb_spec (date_key field y) 0); [lia|].
        destruct (Z.gtb_spec (date_key field y) 0); [|lia]. reflexivity. }
      rewrite Hins, Hx.
      destruct (IH (us ++ [x])%list rest) as [rest' [E Hr']]; auto.
      { apply Forall_app. split; [exact Hus|constructor; [exact Hx|constructor]]. }
      exists rest'. split; [|exact Hr'].
      replace (us ++ x :: rest)%list with ((us ++ [x]) ++ rest)%list
        by (rewrite <- app_assoc; reflexivity).
      rewrite E. rewrite <- app_assoc. reflexivity.
    + rewrite (Hunp x Hx).
      apply IH; auto. apply insert_Forall; auto.
Qed.

Section InsertSorted.
Variable P : Item.t -> Prop.
Variable R : Item.t -> Item.t -> Prop.
Variable cmp : Item.t -> Item.t -> Z.
Hypothesis cmp_gt : forall a b, P a -> P b -> cmp a b > 0 -> R b a.
Hypothesis cmp_le : forall a b, P a -> P b -> ~ cmp a b > 0 -> R a b.

Lemma insert_by_hd (a x : Item.t) (l : list Item.t) :
  R a x -> HdRel R a l -> HdRel R a (insert_by cmp x l).
Proof.
  intros Hax Hl. destruct l as [|y l]; simpl; [constructor; exact Hax|].
  destruct (cmp y x >? 0); [constructor; exact Hax|inversion Hl; constructor; assumption].
Qed.

Lemma insert_by_sorted (x : Item.t) (l : list Item.t) :
  P x -> Forall P l -> Sorted R l -> Sorted R (insert_by cmp x l).
Proof.
  intros Hx; induction l as [|y l IH]; intros Hl Hs; simpl.
  - constructor; constructor.
  - inversion Hl as [|? ? Hy Hl']; subst. inversion Hs as [|? ? Hs' Hhd]; subst.
    destruct (Z.gtb_spec (cmp y x) 0) as [Hgt|Hle].
    + constructor; [exact Hs|]. constructor. apply cmp_gt; auto; lia.
    + constructor; [apply IH; auto|]. apply insert_by_hd; auto; apply cmp_le; auto; lia.
Qed.

Lemma insert_by_Forall (x : Item.t) (l : list Item.t) :
  P x -> Forall P l -> Forall P (insert_by cmp x l).
Proof. apply insert_Forall. Qed.

Lemma sort_by_sorted (l : list Item.t) :
  Forall P l -> Sorted R (sort_by cmp l).
Proof.
  unfold sort_by. intros Hl.
  assert (Hgen : forall acc, Forall P acc -> Sorted R acc ->
            Sorted R (fold_left (fun acc x => insert_by cmp x acc) l acc)).
  { induction l as [|x l IH]; intros acc Ha Hs; simpl; [exact Hs|].
    inversion Hl; subst. apply IH; auto.
    - apply insert_by_Forall; auto.
    - apply insert_by_sorted; auto. }
  apply Hgen; constructor.
Qed.
End InsertSorted.

(** The number [sort] compares an item by on the quantity column. *)
Definition qkey (i : Item.t) : num :=
  ToNumber (nullish (field_get i "quantity") (jnum 0)).

Definition qval (i : Item.t) : Q :=
  match qkey i with Fin q => q | _ => 0%Q end.

Lemma compare_quantity (dir : Z) (a b : Item.t) (p q : Q) :
  qkey a = Fin p -> qkey b = Fin q ->
  compare_items "quantity" dir a b =
    if Qeq_bool p q then 0 else if negb (Qle_bool p q) then dir else - dir.
Proof.
  unfold qkey; intros Ha Hb. unfold compare_items.
  cbn [String.eqb Ascii.eqb Bool.eqb andb].
  rewrite Ha, Hb.
  replace (includes (toLowerCase "quantity") "date") with false by (vm_compute; reflexivity).
  unfold strict_eq, js_greater, js_less, js_lt, num_eqb. simpl.
  destruct (Qle_bool p q); reflexivity.
Qed.

(** On the quantity column, when every quantity converts to a finite
    number, [sort] orders the items by that number. *)
Lemma sort_quantity_numeric (items : list Item.t) :
  Forall (fun i => exists q, qkey i = Fin q) items ->
  Sorted (fun a b => (qval a <= qval b)%Q) (sort items "quantity" "asc") /\
  Sorted (fun a b => (qval b <= qval a)%Q) (sort items "quantity" "desc").
Proof.
  intros Hfin.
  unfold sort. cbn [negb truthy String.eqb Ascii.eqb Bool.eqb andb].
  split; apply (sort_by_sorted (fun i => exists q, qkey i = Fin q)); auto;
    intros a b [p Ha] [q Hb]; rewrite (compare_quantity _ a b p q Ha Hb);
    unfold qval; rewrite Ha, Hb;
    destruct (Qeq_bool p q) eqn:E1; destruct (Qle_bool p q) eqn:E2; simpl;
    try lia; intros _;
    try (apply Qeq_bool_iff in E1; rewrite E1; apply Qle_refl);
    try (apply Qle_bool_iff in E2; exact E2);
    try (apply Qlt_le_weak, Qnot_le_lt; intros H; apply Qle_bool_iff in H; congruence).
Qed.

Definition qty_items : list Item.t :=
  [sample "A" "2030-01-01" 3 "Unopened"; sample "B" "2030-01-01" 1 "Unopened";
   sample "C" "2030-01-01" 2 "Unopened"].

(** Quantities given as texts: ['9'], ['10'] and ['2']. *)
Definition qty_text_items : list Item.t :=
  map (fun q => Item.mk (TStr q) (TStr "Chemistry") (TStr q) (TStr "") (TStr "") (TStr "")
                  (TStr "") (TStr "2030-01-01") (TStr "") (TStr "Unopened") (JStr q) (TStr ""))
      ["9"; "10"; "2"].

(** C6 (counterexample). Ascending by [expiryDate], an item dated
    1960-01-01 (a time before the epoch) is placed before an item whose
    date does not parse. *)
Lemma sort_pre_epoch_first :
  let r := sort [sample "B" "abc" 1 "Unopened"; sample "A" "1960-01-01" 1 "Unopened"]
                "expiryDate" "asc" in
  parse (field_get (nth 0 r blank) "expiryDate") = Some (-315619200000) /\
  parse (field_get (nth 1 r blank) "expiryDate") = None.
Proof. vm_compute. split; reflexivity. Qed.

(** C6 (amended). A field whose name contains "date" is compared by the
    parsed time with absent or unparseable dates at the epoch (0); so, in
    ascending order and when every parseable date lies after the epoch,
    the unparseable items come first, in their input order.  Sorting by
    [quantity] is numeric: two quantities that convert to finite numbers
    are compared as numbers, so a list of such items comes out
    non-increasing for ['desc'] and non-decreasing for ['asc'];
    descending on quantities [3,1,2] gives [3,2,1], and on the texts
    ['9','10','2'] gives ['10','9','2'] (not the text order). *)
Theorem sort_date_epoch (items : list Item.t) (field : string)
    (Hd : includes (toLowerCase field) "date" = true)
    (Hpos : forall i, In i items ->
              parse (field_get i field) = None \/ after_epoch field i) :
  (forall dir a b, compare_items field dir a b =
     if date_key field a =? date_key field b then 0
     else if date_key field a >? date_key field b then dir else - dir) /\
  (exists rest,
     sort items field "asc" = List.filter (unparseable field) items ++ rest /\
     Forall (after_epoch field) rest) /\
  (forall dir a b p q, qkey a = Fin p -> qkey b = Fin q ->
     compare_items "quantity" dir a b =
       if Qeq_bool p q then 0 else if negb (Qle_bool p q) then dir else - dir) /\
  (forall l, Forall (fun i => exists q, qkey i = Fin q) l ->
     Sorted (fun a b => (qval b <= qval a)%Q) (sort l "quantity" "desc") /\
     Sorted (fun a b => (qval a <= qval b)%Q) (sort l "quantity" "asc")) /\
  map Item.quantity (sort qty_items "quantity" "desc") = [jnum 3; jnum 2; jnum 1] /\
  map Item.quantity (sort qty_text_items "quantity" "desc") = [JStr "10"; JStr "9"; JStr "2"].
Proof.
  split; [intros; apply compare_date_field, Hd|].
  split; [|split; [intros dir a b p q; apply compare_quantity|]].
  2:{ split; [intros l Hl; destruct (sort_quantity_numeric l Hl); split; assumption|].
      split; vm_compute; reflexivity. }
  assert (Hf : truthy (JStr field) = true).
  { destruct field as [|c f]; [vm_compute in Hd; discriminate|reflexivity]. }
  unfold sort. rewrite Hf. simpl negb. cbv iota.
  replace (if String.eqb "asc" "desc" then -1 else 1) with 1 by reflexivity.
  destruct (sort_epoch_aux field Hd items [] [] (List.Forall_nil _) (List.Forall_nil _))
    as [rest [E Hr]].
  { apply List.Forall_forall. intros x Hx. destruct (Hpos x Hx) as [H|H]; [left|right; exact H].
    unfold unparseable. now rewrite H. }
  exists rest. split; [exact E|exact Hr].
Qed.

Lemma sort_date_epoch_witness :
  let items := [sample "A" "2030-01-01" 1 "Unopened"; sample "B" "abc" 1 "Unopened"] in
  includes (toLowerCase "expiryDate") "date" = true /\
  exists rest,
    sort items "expiryDate" "asc" =
      List.filter (unparseable "expiryDate") items ++ rest /\
    Forall (after_epoch "expiryDate") rest.
Proof.
  intros items.
  assert (Hd : includes (toLowerCase "expiryDate") "date" = true) by reflexivity.
  split; [exact Hd|].
  refine (proj1 (proj2 (sort_date_epoch items "expiryDate" Hd _))).
  intros i Hi. simpl in Hi.
  destruct Hi as [<-|[<-|[]]].
  - right. exists 1893456000000. split; [vm_compute; reflexivity|lia].
  - left. vm_compute. reflexivity.
Defined.

(* ----------------------------------------------------------------- *)
(** *** Alert counters *)

Definition count_by (p : Item.t -> bool) (l : list Item.t) : nat :=
  length (List.filter p l).

Definition has_code (tz now : Z) (c : string) (i : Item.t) : bool :=
  String.eqb (code (classifyExpiry tz now (of_tv (Item.expiryDate i)))) c.

Definition is_out_of_stock (i : Item.t) : bool :=
  match Item.status i with TStr s => String.eqb s "Out of Stock" | _ => false end.

Definition is_zero_quantity (i : Item.t) : bool :=
  match Item.quantity i with JNum (Fin q) => Qeq_bool q 0 | _ => false end.

Lemma alerts_fold (tz now : Z) (l : list Item.t) (acc : alerts) :
  fold_left (alert_step tz now) l acc =
  mkAlerts (expSoon acc + count_by (has_code tz now "warning") l)
           (expired acc + count_by (has_code tz now "expired") l)
           (outOfStock acc + count_by is_out_of_stock l)
           (zeroQty acc + count_by is_zero_quantity l).
Proof.
  revert acc; induction l as [|x l IH]; intros [a b c d]; simpl.
  - unfold count_by; simpl. f_equal; lia.
  - rewrite IH. unfold count_by, has_code; simpl.
    assert (Hs : strict_eq (of_tv (Item.status x)) (JStr "Out of Stock") = is_out_of_stock x).
    { unfold is_out_of_stock. destruct (Item.status x); reflexivity. }
    assert (Hz : strict_eq (Item.quantity x) (jnum 0) = is_zero_quantity x).
    { unfold is_zero_quantity. destruct (Item.quantity x) as [| | |[| | |q]|]; reflexivity. }
    rewrite Hs, Hz.
    destruct (String.eqb (code (classifyExpiry tz now (of_tv (Item.expiryDate x)))) "warning");
    destruct (String.eqb (code (classifyExpiry tz now (of_tv (Item.expiryDate x)))) "expired");
    destruct (is_out_of_stock x); destruct (is_zero_quantity x); simpl; f_equal; lia.
Qed.

Lemma computeAlerts_same_day (tz now now' : Z) (l : list Item.t) :
  (forall v, classifyExpiry tz now v = classifyExpiry tz now' v) ->
  computeAlerts tz now l = computeAlerts tz now' l.
Proof.
  intros H. unfold computeAlerts. generalize (mkAlerts 0 0 0 0).
  induction l as [|x l IH]; intros acc; simpl; [reflexivity|].
  replace (alert_step tz now acc x) with (alert_step tz now' acc x)
    by (unfold alert_step; rewrite H; reflexivity).
  apply IH.
Qed.

Lemma classifyExpiry_day (tz now now' : Z) (v : jsval) :
  (now + tz) / msPerDay = (now' + tz) / msPerDay ->
  classifyExpiry tz now v = classifyExpiry tz now' v.
Proof.
  intros H. unfold classifyExpiry. destruct (parse v); [|reflexivity].
  rewrite !daysBetween_midnights, H. reflexivity.
Qed.

(** The spec's scenario: A, with quantity 0 and status Opened, expiring
    on [sA]; B, with quantity 5 and status Unopened, expiring on [sB]. *)
Definition alert_scenario (sA sB : string) : list Item.t :=
  [sample "A" sA 0 "Opened"; sample "B" sB 5 "Unopened"].

(** C7. [computeAlerts] counts, independently, the items classified
    [warning] (expSoon) and [expired] (expired), the items whose status is
    exactly ['Out of Stock'], and those whose quantity is the number 0; on
    the scenario, in any time zone and at any time [now], when A's expiry
    date falls ten local days before the local day of [now] and B's 200
    local days after it, it returns expired 1, expSoon 0, outOfStock 0,
    zeroQty 1. *)
Theorem computeAlerts_spec (tz now : Z) (items : list Item.t) :
  computeAlerts tz now items =
    mkAlerts (count_by (has_code tz now "warning") items)
             (count_by (has_code tz now "expired") items)
             (count_by is_out_of_stock items)
             (count_by is_zero_quantity items) /\
  (forall sA sB eA eB,
     parse (JStr sA) = Some eA -> parse (JStr sB) = Some eB ->
     (eA + tz) / msPerDay = (now + tz) / msPerDay - 10 ->
     (eB + tz) / msPerDay = (now + tz) / msPerDay + 200 ->
     computeAlerts tz now (alert_scenario sA sB) = mkAlerts 0 1 0 1).
Proof.
  split.
  - unfold computeAlerts. rewrite alerts_fold. reflexivity.
  - intros sA sB eA eB HA HB DA DB.
    unfold computeAlerts, alert_scenario. cbn [fold_left].
    unfold alert_step at 2. unfold alert_step. cbn [Item.expiryDate Item.status Item.quantity sample of_tv].
    unfold classifyExpiry. rewrite HA, HB, !daysBetween_midnights, DA, DB.
    replace ((now + tz) / msPerDay - 10 - (now + tz) / msPerDay) with (-10) by lia.
    replace ((now + tz) / msPerDay + 200 - (now + tz) / msPerDay) with 200 by lia.
    reflexivity.
Qed.

Lemma computeAlerts_spec_witness :
  computeAlerts 0 noon_2026_10_15 (alert_scenario "2026-10-05" "2027-05-03") = mkAlerts 0 1 0 1 /\
  computeAlerts 19800000 noon_2026_10_15 (alert_scenario "2026-10-05" "2027-05-03")
    = mkAlerts 0 1 0 1 /\
  computeAlerts (-18000000) noon_2026_10_15 (alert_scenario "2026-10-06" "2027-05-04")
    = mkAlerts 0 1 0 1.
Proof.
  split; [|split].
  - apply (proj2 (computeAlerts_spec 0 noon_2026_10_15 []) "2026-10-05" "2027-05-03"
             (days_from_civil 2026 10 5 * msPerDay) (days_from_civil 2027 5 3 * msPerDay));
      vm_compute; reflexivity.
  - apply (proj2 (computeAlerts_spec 19800000 noon_2026_10_15 []) "2026-10-05" "2027-05-03"
             (days_from_civil 2026 10 5 * msPerDay) (days_from_civil 2027 5 3 * msPerDay));
      vm_compute; reflexivity.
  - apply (proj2 (computeAlerts_spec (-18000000) noon_2026_10_15 []) "2026-10-06" "2027-05-04"
             (days_from_civil 2026 10 6 * msPerDay) (days_from_civil 2027 5 4 * msPerDay));
      vm_compute; reflexivity.
Defined.

(* ----------------------------------------------------------------- *)
(** *** Row mapping *)

(** The text fields of an item other than [status]. *)
Definition plain_text_fields : list (Item.t -> tv) :=
  [Item.id; Item.category; Item.itemName; Item.brand; Item.contentVolume;
   Item.lotNumber; Item.dateReceived; Item.expiryDate; Item.dateOpened; Item.remarks].

(** The fields [mapItemToRow] writes with [|| null]. *)
Definition nullable_fields : list ((Item.t -> tv) * (Row.t -> tv)) :=
  [(Item.category, Row.category); (Item.brand, Row.brand);
   (Item.contentVolume, Row.content_volume); (Item.lotNumber, Row.lot_number);
   (Item.dateReceived, Row.date_received); (Item.expiryDate, Row.expiry_date);
   (Item.dateOpened, Row.date_opened); (Item.remarks, Row.remarks)].

Lemma tv_or_null_or (x : tv) (s : string) :
  x = TStr s -> tv_or (tv_or_null x) "" = TStr s.
Proof.
  intros ->. unfold tv_or, tv_or_null. simpl.
  destruct (String.eqb s "") eqn:E; simpl.
  - apply String.eqb_eq in E. now subst.
  - rewrite E. reflexivity.
Qed.

(** C8 (counterexample). An empty [itemName] is stored as the empty
    string, not as null. *)
Lemma mapItemToRow_empty_itemName :
  Item.itemName bad_input = TStr "" /\
  Row.item_name (mapItemToRow bad_input) = TStr "" /\
  Row.item_name (mapItemToRow bad_input) <> TNull.
Proof. vm_compute. repeat split; discriminate. Qed.

(** C8 (amended). Row then back: every string field other than [status]
    comes back unchanged (empty strings included), a non-empty [status]
    too while an empty one comes back as ['Unopened'], and a numeric
    quantity is kept.  Forward: the empty strings of category, brand,
    contentVolume, lotNumber, dateReceived, expiryDate, dateOpened and
    remarks are stored as null, [id] and [itemName] are copied as they
    are, [status] is always a non-empty string and [quantity] a number. *)
Theorem mapping_roundtrip (item : Item.t) :
  (forall g, In g plain_text_fields -> forall s, g item = TStr s ->
     g (mapRowToItem (mapItemToRow item)) = TStr s) /\
  (forall s, Item.status item = TStr s -> s <> "" ->
     Item.status (mapRowToItem (mapItemToRow item)) = TStr s) /\
  (Item.status item = TStr "" ->
     Item.status (mapRowToItem (mapItemToRow item)) = TStr "Unopened") /\
  (forall n, Item.quantity item = JNum n ->
     Item.quantity (mapRowToItem (mapItemToRow item)) = JNum n) /\
  (forall p, In p nullable_fields -> fst p item = TStr "" ->
     snd p (mapItemToRow item) = TNull) /\
  Row.id (mapItemToRow item) = Item.id item /\
  Row.item_name (mapItemToRow item) = Item.itemName item /\
  (exists s, Row.status (mapItemToRow item) = TStr s /\ s <> "") /\
  (exists n, Row.quantity (mapItemToRow item) = JNum n).
Proof.
  split; [|split; [|split; [|split; [|split; [|split; [|split; [|split]]]]]]].
  - intros g Hg s Hs. simpl in Hg.
    destruct Hg as [<-|[<-|[<-|[<-|[<-|[<-|[<-|[<-|[<-|[<-|[]]]]]]]]]]]; simpl;
      try exact Hs; apply tv_or_null_or; exact Hs.
  - intros s Hs Hne. simpl. unfold tv_or. rewrite Hs. simpl.
    destruct (String.eqb_spec s "") as [E|_]; [contradiction|]. simpl.
    destruct (String.eqb_spec s ""); [contradiction|reflexivity].
  - intros Hs. simpl. unfold tv_or. rewrite Hs. reflexivity.
  - intros n Hn. simpl. rewrite Hn. reflexivity.
  - intros p Hp Hs. simpl in Hp.
    destruct Hp as [<-|[<-|[<-|[<-|[<-|[<-|[<-|[<-|[]]]]]]]]]; simpl in *;
      unfold tv_or_null; rewrite Hs; reflexivity.
  - reflexivity.
  - reflexivity.
  - simpl. unfold tv_or. destruct (Item.status item) as [| |s]; simpl;
      [eexists; split; [reflexivity|discriminate]..|].
    destruct (String.eqb_spec s "") as [->|Hs]; simpl.
    + eexists; split; [reflexivity|discriminate].
    + eexists; split; [reflexivity|exact Hs].
  - eexists. reflexivity.
Qed.

(* ----------------------------------------------------------------- *)
(** *** Persistence *)

(** C9. [upsert] and [remove] return exactly what [load] returns from the
    state left by the write (with no client, the early [return []] equals
    [load]'s own result); a rejected or throwing write leaves the table as
    it was and logs one message; and [load] yields the empty list, logging,
    when there is no client or the select fails. *)
Theorem upsert_remove_reload (c : option client) (s : st) (item : Item.t) (id : tv) :
  (exists s1, upsert c s item = load c s1 /\
     forall cl, c = Some cl -> do_upsert cl (rows s) (mapItemToRow item) <> WOk ->
       rows s1 = rows s /\ exists m, log s1 = log s ++ [m]) /\
  (exists s1, remove c s id = load c s1 /\
     forall cl, c = Some cl -> do_delete cl (rows s) id <> WOk ->
       rows s1 = rows s /\ exists m, log s1 = log s ++ [m]) /\
  ((c = None \/ exists cl, c = Some cl /\
      (do_select cl (rows s) = SError \/ do_select cl (rows s) = SThrow)) ->
   snd (load c s) = [] /\ exists m, fst (load c s) = log_msg s m).
Proof.
  destruct c as [cl|]; split; [|split| |split].
  - eexists. split; [reflexivity|].
    intros cl' E Hw. inversion E; subst cl'. simpl.
    destruct (do_upsert cl (rows s) (mapItemToRow item)); [contradiction| |];
      simpl; eauto.
  - eexists. split; [reflexivity|].
    intros cl' E Hw. inversion E; subst cl'. simpl.
    destruct (do_delete cl (rows s) id); [contradiction| |]; simpl; eauto.
  - intros [H|[cl' [E [H|H]]]]; [discriminate| |]; inversion E; subst cl';
      unfold load, getClient; cbn [fst snd]; rewrite H; simpl; eauto.
  - exists s. split; [reflexivity|intros; discriminate].
  - exists s. split; [reflexivity|intros; discriminate].
  - intros _. simpl. eauto.
Qed.

(* ================================================================= *)
(** ** Further properties of the code *)

Lemma tv_or_str (x : tv) (d : string) : exists s, tv_or x d = TStr s.
Proof.
  unfold tv_or. destruct (truthy (of_tv x)) eqn:E; [|eauto].
  destruct x as [| |s]; simpl in E; try discriminate. eauto.
Qed.

Lemma tv_or_nonempty (x : tv) (d : string) :
  d <> "" -> exists s, tv_or x d = TStr s /\ s <> "".
Proof.
  intros Hd. unfold tv_or. destruct (truthy (of_tv x)) eqn:E; [|eauto].
  destruct x as [| |s]; simpl in E; try discriminate.
  exists s. split; [reflexivity|]. intros ->. discriminate.
Qed.

(** Every item [load] returns is [mapRowToItem] of a row in the [data]
    the backend answered to the select on the current table, and carries
    the defaults of [mapRowToItem]: its id and itemName are the row's, its
    optional text fields are strings (never null), its status a non-empty
    string, its quantity a number. *)
Theorem load_items_defaults (c : option client) (s : st) (i : Item.t) :
  In i (snd (load c s)) ->
  exists cl data row,
    c = Some cl /\ do_select cl (rows s) = SOk (Some data) /\ In row data /\
    i = mapRowToItem row /\
    Item.id i = Row.id row /\ Item.itemName i = Row.item_name row /\
    (forall g, In g [Item.category; Item.brand; Item.contentVolume; Item.lotNumber;
                     Item.dateReceived; Item.expiryDate; Item.dateOpened; Item.remarks] ->
       exists str, g i = TStr str) /\
    (exists str, Item.status i = TStr str /\ str <> "") /\
    (exists n, Item.quantity i = JNum n).
Proof.
  unfold load, getClient. destruct c as [cl|]; simpl; [|intros []].
  destruct (do_select cl (rows s)) as [[data|]| |] eqn:Esel; simpl;
    [|intros []|intros []|intros []].
  intros Hi. apply in_map_iff in Hi. destruct Hi as [row [<- Hrow]].
  exists cl, data, row.
  split; [reflexivity|]. split; [exact Esel|]. split; [exact Hrow|].
  split; [reflexivity|]. split; [reflexivity|]. split; [reflexivity|].
  split; [|split; [apply tv_or_nonempty; discriminate|eexists; reflexivity]].
  intros g Hg. simpl in Hg.
  repeat (destruct Hg as [<-|Hg]; [apply tv_or_str|]). destruct Hg.
Qed.

Lemma load_items_defaults_witness :
  let row := Row.mk (TStr "itm-1") TNull (TStr "Glucose") TNull TNull TNull TNull
               (TStr "2030-01-01") TNull TNull JNull TNull in
  let cl := mkClient (fun r => SOk (Some r)) (fun _ _ => WOk) (fun _ _ => WOk) in
  In (mapRowToItem row) (snd (load (Some cl) (mkSt [row] []))) /\
  exists cl' data r,
    Some cl = Some cl' /\ do_select cl' [row] = SOk (Some data) /\ In r data /\
    mapRowToItem row = mapRowToItem r /\ Item.id (mapRowToItem row) = Row.id r /\
    Item.itemName (mapRowToItem row) = Row.item_name r /\
    (forall g, In g [Item.category; Item.brand; Item.contentVolume; Item.lotNumber;
                     Item.dateReceived; Item.expiryDate; Item.dateOpened; Item.remarks] ->
       exists str, g (mapRowToItem row) = TStr str) /\
    (exists str, Item.status (mapRowToItem row) = TStr str /\ str <> "") /\
    (exists n, Item.quantity (mapRowToItem row) = JNum n).
Proof.
  intros row cl.
  assert (H : In (mapRowToItem row) (snd (load (Some cl) (mkSt [row] [])))) by (left; reflexivity).
  split; [exact H|].
  exact (load_items_defaults (Some cl) (mkSt [row] []) (mapRowToItem row) H).
Defined.

(* ----------------------------------------------------------------- *)
(** *** [sort] returns a reordering of its input *)

Lemma insert_by_perm (cmp : Item.t -> Item.t -> Z) (x : Item.t) (l : list Item.t) :
  Permutation (insert_by cmp x l) (x :: l).
Proof.
  induction l as [|y l IH]; simpl; [reflexivity|].
  destruct (cmp y x >? 0); [reflexivity|].
  rewrite IH. apply perm_swap.
Qed.

Lemma sort_by_perm_aux (cmp : Item.t -> Item.t -> Z) (l acc : list Item.t) :
  Permutation (fold_left (fun acc x => insert_by cmp x acc) l acc) (l ++ acc).
Proof.
  revert acc; induction l as [|x l IH]; intros acc; simpl; [reflexivity|].
  rewrite IH, insert_by_perm. symmetry. apply Permutation_middle.
Qed.

(** [sort] never drops, duplicates or invents an item, for any field and
    direction. *)
Theorem sort_permutation (items : list Item.t) (sortField direction : string) :
  Permutation (sort items sortField direction) items.
Proof.
  unfold sort. destruct (negb (truthy (JStr sortField))); [reflexivity|].
  unfold sort_by. rewrite sort_by_perm_aux, app_nil_r. reflexivity.
Qed.

(* ----------------------------------------------------------------- *)
(** *** [sort] orders by its key *)

(** Sorting on a date field orders the items by their date key (the parsed
    time, 0 for a missing or unparseable date): non-decreasing for ['asc'],
    non-increasing for ['desc']. *)
Theorem sort_date_sorted (items : list Item.t) (field : string)
    (Hd : includes (toLowerCase field) "date" = true) :
  Sorted (fun a b => date_key field a <= date_key field b) (sort items field "asc") /\
  Sorted (fun a b => date_key field b <= date_key field a) (sort items field "desc").
Proof.
  assert (Hf : truthy (JStr field) = true).
  { destruct field as [|c f]; [vm_compute in Hd; discriminate|reflexivity]. }
  unfold sort. rewrite Hf. simpl negb. cbv iota.
  split.
  - replace (if String.eqb "asc" "desc" then -1 else 1) with 1 by reflexivity.
    apply (sort_by_sorted (fun _ => True)); [| |apply List.Forall_forall; auto];
      intros a b _ _; rewrite compare_date_field by exact Hd;
      destruct (Z.eqb_spec (date_key field a) (date_key field b));
      destruct (Z.gtb_spec (date_key field a) (date_key field b)); lia.
  - replace (if String.eqb "desc" "desc" then -1 else 1) with (-1) by reflexivity.
    apply (sort_by_sorted (fun _ => True)); [| |apply List.Forall_forall; auto];
      intros a b _ _; rewrite compare_date_field by exact Hd;
      destruct (Z.eqb_spec (date_key field a) (date_key field b));
      destruct (Z.gtb_spec (date_key field a) (date_key field b)); lia.
Qed.

Lemma sort_date_sorted_witness :
  includes (toLowerCase "expiryDate") "date" = true /\
  Sorted (fun a b => date_key "expiryDate" a <= date_key "expiryDate" b)
         (sort qty_items "expiryDate" "asc") /\
  Sorted (fun a b => date_key "expiryDate" b <= date_key "expiryDate" a)
         (sort qty_items "expiryDate" "desc").
Proof.
  assert (Hd : includes (toLowerCase "expiryDate") "date" = true) by (vm_compute; reflexivity).
  split; [exact Hd|]. exact (sort_date_sorted qty_items "expiryDate" Hd).
Defined.

(** Sorting on the quantity column, when every quantity converts to a finite
    number, orders the items numerically: non-decreasing for ['asc'],
    non-increasing for ['desc']. *)
Theorem sort_quantity_sorted (items : list Item.t)
    (Hfin : Forall (fun i => exists q, qkey i = Fin q) items) :
  Sorted (fun a b => (qval a <= qval b)%Q) (sort items "quantity" "asc") /\
  Sorted (fun a b => (qval b <= qval a)%Q) (sort items "quantity" "desc").
Proof. exact (sort_quantity_numeric items Hfin). Qed.

Lemma sort_quantity_sorted_witness :
  Forall (fun i => exists q, qkey i = Fin q) qty_items /\
  Sorted (fun a b => (qval a <= qval b)%Q) (sort qty_items "quantity" "asc") /\
  Sorted (fun a b => (qval b <= qval a)%Q) (sort qty_items "quantity" "desc").
Proof.
  assert (H : Forall (fun i => exists q, qkey i = Fin q) qty_items).
  { repeat constructor; eexists; reflexivity. }
  split; [exact H|]. exact (sort_quantity_sorted qty_items H).
Defined.

(* ----------------------------------------------------------------- *)
(** *** Date-only strings are UTC midnights, read in local time *)

Lemma utc_date_midnight (y m d e : Z) :
  utc_date y m d = Some e -> e mod msPerDay = 0.
Proof.
  unfold utc_date. destruct (_ && _)%bool; [|discriminate].
  intros H; injection H as <-. apply Z.mod_mul. unfold msPerDay; lia.
Qed.

Lemma parse_date_string_midnight (s : string) (e : Z) :
  parse_date_string s = Some e -> e mod msPerDay = 0.
Proof.
  unfold parse_date_string. intros H.
  repeat (case_match; try discriminate); eapply utc_date_midnight; eassumption.
Qed.

(** A date-only expiry string names a UTC midnight, which [classifyExpiry]
    reads in local time.  When the expiry date is the local date of [now],
    a time zone west of UTC (offset in [-1 day, 0)) classifies the item as
    expired one day ago, while a zone at or east of UTC (offset in
    [0, 1 day)) gives "Expiring in 0 days". *)
Theorem classifyExpiry_local_today (tz now e : Z) (s : string)
    (He : parse_date_string s = Some e)
    (Hday : (now + tz) / msPerDay = e / msPerDay) :
  (-msPerDay <= tz < 0 ->
     classifyExpiry tz now (JStr s) = mkInfo "Expired" "expired" (Some (-1))) /\
  (0 <= tz < msPerDay ->
     classifyExpiry tz now (JStr s) = mkInfo "Expiring in 0 days" "warning" (Some 0)).
Proof.
  assert (Hp : parse (JStr s) = Some e).
  { destruct s as [|c s']; [discriminate|exact He]. }
  pose proof (parse_date_string_midnight s e He) as Hm.
  assert (HD : msPerDay > 0) by (unfold msPerDay; lia).
  pose proof (Z.div_mod e msPerDay ltac:(lia)) as Hk. rewrite Hm, Z.add_0_r in Hk.
  set (k := e / msPerDay) in *.
  assert (Hshift : (e + tz) / msPerDay = k + tz / msPerDay).
  { rewrite Hk, Z.mul_comm, Z.div_add_l by lia. reflexivity. }
  unfold classifyExpiry. rewrite Hp. cbv zeta.
  rewrite daysBetween_midnights, Hshift, Hday. fold k.
  split; intros Htz.
  - assert (tz / msPerDay = -1) as ->
      by (symmetry; apply Z.div_unique with (r := tz + msPerDay); lia).
    replace (k + -1 - k) with (-1) by ring. reflexivity.
  - rewrite (Z.div_small tz msPerDay Htz).
    replace (k + 0 - k) with 0 by ring. reflexivity.
Qed.

Lemma classifyExpiry_local_today_witness :
  parse_date_string "2026-10-15" = Some (days_from_civil 2026 10 15 * msPerDay) /\
  (noon_2026_10_15 + -18000000) / msPerDay = days_from_civil 2026 10 15 * msPerDay / msPerDay /\
  classifyExpiry (-18000000) noon_2026_10_15 (JStr "2026-10-15")
    = mkInfo "Expired" "expired" (Some (-1)) /\
  classifyExpiry 7200000 noon_2026_10_15 (JStr "2026-10-15")
    = mkInfo "Expiring in 0 days" "warning" (Some 0).
Proof.
  assert (He : parse_date_string "2026-10-15" = Some (days_from_civil 2026 10 15 * msPerDay))
    by (vm_compute; reflexivity).
  assert (H1 : (noon_2026_10_15 + -18000000) / msPerDay
               = days_from_civil 2026 10 15 * msPerDay / msPerDay) by (vm_compute; reflexivity).
  assert (H2 : (noon_2026_10_15 + 7200000) / msPerDay
               = days_from_civil 2026 10 15 * msPerDay / msPerDay) by (vm_compute; reflexivity).
  split; [exact He|]. split; [exact H1|]. split.
  - apply (classifyExpiry_local_today (-18000000) noon_2026_10_15 _ "2026-10-15" He H1).
    unfold msPerDay; lia.
  - apply (classifyExpiry_local_today 7200000 noon_2026_10_15 _ "2026-10-15" He H2).
    unfold msPerDay; lia.
Defined.

(* ----------------------------------------------------------------- *)
(** *** Submitting the add and edit forms *)

Lemma tv_or_str_empty (c : string) : tv_or (TStr c) "" = TStr c.
Proof. unfold tv_or; simpl. destruct (String.eqb_spec c ""); subst; reflexivity. Qed.

Lemma js_less_num_zero (n : num) :
  js_less (JNum n) (jnum 0) =
    match n with Fin r => negb (Qle_bool 0 r) | NInf => true | _ => false end.
Proof. destruct n as [| | |r]; try reflexivity. unfold js_less, js_lt, jnum, ToNumber, num_lt.
  change (inject_Z 0) with 0%Q. destruct (Qle_bool 0 r); reflexivity. Qed.

Ltac disj_close :=
  match goal with
  | |- _ \/ _ => first [left; disj_close | right; disj_close]
  | |- ?x = ?x => reflexivity
  | H : (?r < 0)%Q |- exists r', Fin ?r = Fin r' /\ _ => exists r; split; [reflexivity|exact H]
  end.

(** [validate] rejects an item whose category, name and expiry are strings
    and whose quantity is a number exactly when one of the strings is empty
    or the number is NaN or negative. *)
Lemma validate_rejects (i : Item.t) (c n e : string) (qn : num) :
  of_tv (Item.category i) = JStr c -> of_tv (Item.itemName i) = JStr n ->
  of_tv (Item.expiryDate i) = JStr e -> Item.quantity i = JNum qn ->
  (validate i <> [] <->
   c = "" \/ n = "" \/ e = "" \/ qn = NaN \/ qn = NInf \/
   exists r, qn = Fin r /\ (r < 0)%Q).
Proof.
  intros Hc Hn He Hq. unfold validate. rewrite Hc, Hn, He, Hq, js_less_num_zero.
  cbn [truthy loose_null isNaN_strict orb].
  destruct (String.eqb_spec c "") as [->|Hc0]; destruct (String.eqb_spec n "") as [->|Hn0];
  destruct (String.eqb_spec e "") as [->|He0];
  destruct qn as [| | |r]; cbn [negb app];
  try (destruct (Qle_bool 0 r) eqn:Er;
       [apply Qle_bool_iff in Er
       |assert (Hneg : (r < 0)%Q)
          by (apply Qnot_le_lt; intros Hle; apply Qle_bool_iff in Hle; congruence)];
       cbn [negb app]);
  split; intros H;
  first [ exfalso; apply H; reflexivity
        | disj_close
        | discriminate
        | exfalso; destruct H as [H|[H|[H|[H|[H|[r' [Hr H]]]]]]];
          first [ congruence
                | injection Hr as <-; apply (Qlt_not_le _ _ H Er) ] ].
Qed.

(** Both form handlers refuse the submission, show the "Please fix the
    following issues" alert and leave the backend and the page state as
    they were, exactly when category, item name or expiry date is empty
    or the quantity text converts to NaN or to a negative number; otherwise
    the item is saved and no alert is shown. *)
Theorem submit_rejects (c : option client) (s : st) (state : UIState.t) (gen : string) :
  (forall f : AddForm.t,
     (exists m, handleFormSubmit c s state f gen = (s, state, Some m)) <->
     AddForm.category f = "" \/ AddForm.itemName f = "" \/ AddForm.expiryDate f = "" \/
     StringToNumber (AddForm.quantity f) = NaN \/ StringToNumber (AddForm.quantity f) = NInf \/
     exists r, StringToNumber (AddForm.quantity f) = Fin r /\ (r < 0)%Q) /\
  (forall f : EditForm.t,
     (exists m, handleEditSubmit c s state f gen = (s, state, Some m)) <->
     EditForm.editCategory f = "" \/ EditForm.editItemName f = "" \/
     EditForm.editExpiryDate f = "" \/
     StringToNumber (EditForm.editQuantity f) = NaN \/
     StringToNumber (EditForm.editQuantity f) = NInf \/
     exists r, StringToNumber (EditForm.editQuantity f) = Fin r /\ (r < 0)%Q).
Proof.
  assert (Hgen : forall payload c0 n0 e0 qn,
    of_tv (Item.category (createItem payload gen)) = JStr c0 ->
    of_tv (Item.itemName (createItem payload gen)) = JStr n0 ->
    of_tv (Item.expiryDate (createItem payload gen)) = JStr e0 ->
    Item.quantity (createItem payload gen) = JNum qn ->
    (exists m, submit_item c s state payload gen = (s, state, Some m)) <->
    c0 = "" \/ n0 = "" \/ e0 = "" \/ qn = NaN \/ qn = NInf \/
    exists r, qn = Fin r /\ (r < 0)%Q).
  { intros payload c0 n0 e0 qn H1 H2 H3 H4.
    rewrite <- (validate_rejects _ c0 n0 e0 qn H1 H2 H3 H4).
    unfold submit_item. cbv zeta.
    destruct (validate (createItem payload gen)) as [|x xs]; cbn [length Nat.eqb negb].
    - destruct (upsert c s (createItem payload gen)).
      split; [intros [m Hm]; discriminate|intros H; exfalso; apply H; reflexivity].
    - split; [intros _; discriminate|intros _; eexists; reflexivity]. }
  split; intros f.
  - apply Hgen; unfold createItem, add_payload; cbn [Item.category Item.itemName
      Item.expiryDate Item.quantity of_tv]; rewrite ?tv_or_str_empty; reflexivity.
  - apply Hgen; unfold createItem, edit_payload; cbn [Item.category Item.itemName
      Item.expiryDate Item.quantity of_tv]; rewrite ?tv_or_str_empty; reflexivity.
Qed.

Lemma load_rows (c : option client) (s : st) : rows (fst (load c s)) = rows s.
Proof.
  unfold load, getClient. destruct c as [cl|]; [|reflexivity]. cbn [fst snd].
  destruct (do_select cl (rows s)); reflexivity.
Qed.

(** Saving the edit form writes a whole row under the edited id (or a fresh
    id when the id field is empty) whose remarks and date opened are null:
    the form has no such fields, so whatever the stored item had there is
    overwritten. *)
Theorem handleEditSubmit_clears (cl : client) (s : st) (state : UIState.t)
    (f : EditForm.t) (gen : string)
    (Hv : validate (createItem (edit_payload f) gen) = [])
    (Hok : do_upsert cl (rows s) (mapItemToRow (createItem (edit_payload f) gen)) = WOk) :
  exists row,
    rows (fst (fst (handleEditSubmit (Some cl) s state f gen))) = upsert_rows row (rows s) /\
    Row.id row = TStr (if String.eqb (EditForm.editId f) "" then gen else EditForm.editId f) /\
    Row.remarks row = TNull /\ Row.date_opened row = TNull /\
    snd (handleEditSubmit (Some cl) s state f gen) = None.
Proof.
  exists (mapItemToRow (createItem (edit_payload f) gen)).
  unfold handleEditSubmit, submit_item. cbv zeta. rewrite Hv. cbn [length Nat.eqb negb].
  unfold upsert at 1. cbn [getClient]. cbv zeta. rewrite Hok.
  destruct (load (Some cl) (mkSt (upsert_rows (mapItemToRow (createItem (edit_payload f) gen))
                                  (rows s)) (log s))) as [s' items] eqn:Hl.
  cbn [fst snd]. repeat split.
  - replace s' with (fst (load (Some cl) (mkSt (upsert_rows (mapItemToRow
        (createItem (edit_payload f) gen)) (rows s)) (log s)))) by (rewrite Hl; reflexivity).
    rewrite load_rows. reflexivity.
  - unfold mapItemToRow, createItem, edit_payload, tv_or. cbn [Item.id Row.id of_tv truthy].
    destruct (String.eqb (EditForm.editId f) ""); reflexivity.
  - destruct (upsert (Some cl) s (createItem (edit_payload f) gen)); reflexivity.
Qed.

Definition client_accept : client :=
  mkClient (fun l => SOk (Some l)) (fun _ _ => WOk) (fun _ _ => WOk).

Lemma handleEditSubmit_clears_witness :
  let f := EditForm.mk "itm-1" "Chemistry" "Glucose" "" "" "" "" "2030-01-01" "Opened" "3" in
  validate (createItem (edit_payload f) "itm-2") = [] /\
  do_upsert client_accept [] (mapItemToRow (createItem (edit_payload f) "itm-2")) = WOk /\
  exists row,
    rows (fst (fst (handleEditSubmit (Some client_accept) (mkSt [] []) initial_state f "itm-2")))
      = upsert_rows row [] /\
    Row.id row = TStr (if String.eqb (EditForm.editId f) "" then "itm-2" else EditForm.editId f) /\
    Row.remarks row = TNull /\ Row.date_opened row = TNull /\
    snd (handleEditSubmit (Some client_accept) (mkSt [] []) initial_state f "itm-2") = None.
Proof.
  intros f.
  assert (Hv : validate (createItem (edit_payload f) "itm-2") = []) by (vm_compute; reflexivity).
  assert (Hok : do_upsert client_accept (rows (mkSt [] []))
                  (mapItemToRow (createItem (edit_payload f) "itm-2")) = WOk) by reflexivity.
  split; [exact Hv|]. split; [exact Hok|].
  exact (handleEditSubmit_clears client_accept (mkSt [] []) initial_state f "itm-2" Hv Hok).
Defined.

(* ----------------------------------------------------------------- *)
(** *** Clicking a column header *)

(** A click on a column header always makes it the sort column with
    direction ['asc'] or ['desc'], keeping the items and filters; a click on
    a new column sorts ascending, and a second click on the same column
    restores the state it had before the first. *)
Theorem handleSortClick_toggle (state : UIState.t) (field : string)
    (Hdir : UIState.sortDirection state = "asc" \/ UIState.sortDirection state = "desc") :
  let state1 := handleSortClick state field in
  UIState.items state1 = UIState.items state /\
  UIState.filters state1 = UIState.filters state /\
  UIState.sortField state1 = field /\
  (UIState.sortDirection state1 = "asc" \/ UIState.sortDirection state1 = "desc") /\
  (UIState.sortField state <> field -> UIState.sortDirection state1 = "asc") /\
  (UIState.sortField state = field -> handleSortClick state1 field = state).
Proof.
  destruct state as [items filters sf sd]; cbn in Hdir. cbv zeta.
  destruct (String.eqb_spec sf field) as [<-|Hne].
  - destruct Hdir as [-> | ->]; unfold handleSortClick; cbn; rewrite !String.eqb_refl; cbn;
      repeat split; auto; intros H; congruence.
  - unfold handleSortClick; cbn. apply String.eqb_neq in Hne as Hne'. rewrite Hne'. cbn.
    repeat split; auto. intros H; congruence.
Qed.

Lemma handleSortClick_toggle_witness :
  (UIState.sortDirection initial_state = "asc" \/ UIState.sortDirection initial_state = "desc") /\
  let state1 := handleSortClick initial_state "expiryDate" in
  UIState.items state1 = UIState.items initial_state /\
  UIState.filters state1 = UIState.filters initial_state /\
  UIState.sortField state1 = "expiryDate" /\
  (UIState.sortDirection state1 = "asc" \/ UIState.sortDirection state1 = "desc") /\
  (UIState.sortField initial_state <> "expiryDate" -> UIState.sortDirection state1 = "asc") /\
  (UIState.sortField initial_state = "expiryDate" -> handleSortClick state1 "expiryDate" = initial_state).
Proof.
  assert (H : UIState.sortDirection initial_state = "asc" \/
              UIState.sortDirection initial_state = "desc") by (left; reflexivity).
  split; [exact H|]. exact (handleSortClick_toggle initial_state "expiryDate" H).
Defined.

(* ----------------------------------------------------------------- *)
(** *** The alert summary *)

Lemma pill_expired_ne (n : nat) : pill_expired n <> pill_none.
Proof. unfold pill_expired, pill_none, span_open, dq. simpl. discriminate. Qed.

Lemma pill_expSoon_ne (n : nat) : pill_expSoon n <> pill_none.
Proof. unfold pill_expSoon, pill_none, span_open, dq. simpl. discriminate. Qed.

Lemma pill_out_ne (n : nat) : pill_out n <> pill_none.
Proof. unfold pill_out, pill_none, span_open, dq. simpl. discriminate. Qed.

(** The alert summary shows between one and three pills, and it is the
    single "No critical alerts" pill exactly when all four counters of
    [computeAlerts] are zero. *)
Theorem renderAlerts_pills (tz now : Z) (state : UIState.t) :
  let a := computeAlerts tz now (UIState.items state) in
  let v := renderAlerts tz now state in
  (pills v = [pill_none] <->
   expired a = 0%nat /\ expSoon a = 0%nat /\ outOfStock a = 0%nat /\ zeroQty a = 0%nat) /\
  (1 <= length (pills v) <= 3)%nat.
Proof.
  cbv zeta. unfold renderAlerts. cbv zeta.
  destruct (computeAlerts tz now (UIState.items state)) as [es ex oo zq].
  cbn [expSoon expired outOfStock zeroQty pills].
  destruct ex, es, oo, zq; cbn;
  (split;
   [split; intros H;
    [ repeat split; try reflexivity; exfalso;
      first [ discriminate H
            | injection H as H;
              first [ apply (pill_expired_ne _ H) | apply (pill_expSoon_ne _ H)
                    | apply (pill_out_ne _ H) ] ]
    | first [ reflexivity | exfalso; destruct H as (H1 & H2 & H3 & H4); discriminate ] ]
   | lia ]).
Qed.

Lemma count_by_all (p : Item.t -> bool) (l : list Item.t) :
  Forall (fun x => p x = true) l -> count_by p l = length l.
Proof.
  unfold count_by. induction 1 as [|x l Hx _ IH]; [reflexivity|].
  cbn. rewrite Hx. cbn. rewrite IH. reflexivity.
Qed.

(** The out-of-stock figure adds the items marked "Out of Stock" and the
    items with quantity 0, so an item that is both is counted twice: when
    every item is, the KPI card and the pill show twice the number of
    items. *)
Theorem renderAlerts_double_count (tz now : Z) (state : UIState.t)
    (Hall : Forall (fun i => Item.status i = TStr "Out of Stock" /\ Item.quantity i = jnum 0)
                   (UIState.items state)) :
  kpiOutOrZero (renderAlerts tz now state)
    = nat_to_string (2 * length (UIState.items state)) /\
  (UIState.items state <> [] ->
   In (pill_out (2 * length (UIState.items state))) (pills (renderAlerts tz now state))).
Proof.
  assert (Ho : count_by is_out_of_stock (UIState.items state) = length (UIState.items state)).
  { apply count_by_all. eapply Forall_impl; [exact Hall|].
    intros i [Hs _]. unfold is_out_of_stock. rewrite Hs. reflexivity. }
  assert (Hz : count_by is_zero_quantity (UIState.items state) = length (UIState.items state)).
  { apply count_by_all. eapply Forall_impl; [exact Hall|].
    intros i [_ Hq]. unfold is_zero_quantity. rewrite Hq. reflexivity. }
  unfold renderAlerts, computeAlerts. rewrite alerts_fold. cbv zeta.
  cbn [expSoon expired outOfStock zeroQty pills kpiOutOrZero]. rewrite Ho, Hz.
  replace (0 + length (UIState.items state) + (0 + length (UIState.items state)))%nat
    with (2 * length (UIState.items state))%nat by lia.
  split; [reflexivity|]. intros Hne.
  destruct (UIState.items state) as [|x l]; [congruence|]. cbn [length].
  replace ((0 <? 0 + S (length l))%nat) with true by reflexivity. cbn [orb].
  set (p1 := if (0 <? 0 + count_by (has_code tz now "expired") (x :: l))%nat
             then ([] ++ [pill_expired (0 + count_by (has_code tz now "expired") (x :: l))])%list
             else []).
  set (p2 := if (0 <? 0 + count_by (has_code tz now "warning") (x :: l))%nat
             then (p1 ++ [pill_expSoon (0 + count_by (has_code tz now "warning") (x :: l))])%list
             else p1).
  assert (Hin : In (pill_out (2 * S (length l))) (p2 ++ [pill_out (2 * S (length l))])%list).
  { apply in_or_app. right. left. reflexivity. }
  destruct (length (p2 ++ [pill_out (2 * S (length l))])%list =? 0)%nat; [|exact Hin].
  apply in_or_app. left. exact Hin.
Qed.

Lemma renderAlerts_double_count_witness :
  let st0 := UIState.mk [sample "A" "2030-01-01" 0 "Out of Stock";
                         sample "B" "2020-01-01" 0 "Out of Stock"]
               (Filters.mk "" "" "" "" "") "expiryDate" "asc" in
  Forall (fun i => Item.status i = TStr "Out of Stock" /\ Item.quantity i = jnum 0)
         (UIState.items st0) /\
  kpiOutOrZero (renderAlerts 0 noon_2026_10_15 st0) = nat_to_string 4 /\
  (UIState.items st0 <> [] ->
   In (pill_out (2 * length (UIState.items st0))) (pills (renderAlerts 0 noon_2026_10_15 st0))).
Proof.
  intros st0.
  assert (H : Forall (fun i => Item.status i = TStr "Out of Stock" /\ Item.quantity i = jnum 0)
                     (UIState.items st0)) by (repeat constructor).
  split; [exact H|]. exact (renderAlerts_double_count 0 noon_2026_10_15 st0 H).
Defined.

(* ----------------------------------------------------------------- *)
(** *** [DateUtils.format] on date-only strings *)

Lemma days_from_civil_shift (y m d k : Z) :
  days_from_civil (y + 400 * k) m d = days_from_civil y m d + 146097 * k.
Proof.
  unfold days_from_civil.
  assert (Hy : forall y', (y' + k * 400) / 400 = y' / 400 + k)
    by (intros y'; apply Z.div_add; lia).
  destruct (m <=? 2).
  - replace (y + 400 * k - 1) with ((y - 1) + k * 400) by ring. rewrite Hy.
    replace (y - 1 + k * 400 - ((y - 1) / 400 + k) * 400)
      with (y - 1 - (y - 1) / 400 * 400) by ring. ring.
  - replace (y + 400 * k) with (y + k * 400) by ring. rewrite Hy.
    replace (y + k * 400 - (y / 400 + k) * 400) with (y - y / 400 * 400) by ring. ring.
Qed.

Lemma civil_from_days_shift (z k : Z) :
  civil_from_days (z + 146097 * k) =
  let '(y, m, d) := civil_from_days z in (y + 400 * k, m, d).
Proof.
  unfold civil_from_days.
  replace (z + 146097 * k + 719468) with ((z + 719468) + k * 146097) by ring.
  rewrite Z.div_add by lia.
  set (w := z + 719468). set (e := w / 146097).
  replace (w + k * 146097 - (e + k) * 146097) with (w - e * 146097) by ring.
  set (doe := w - e * 146097).
  set (yoe := (doe - doe / 1460 + doe / 36524 - doe / 146096) / 365).
  set (doy := doe - (365 * yoe + yoe / 4 - yoe / 100)).
  set (mp := (5 * doy + 2) / 153).
  destruct (mp <? 10); cbv zeta;
    [destruct (mp + 3 <=? 2)|destruct (mp - 9 <=? 2)]; f_equal; f_equal; ring.
Qed.

Lemma is_leap_shift (y k : Z) : is_leap (y + 400 * k) = is_leap y.
Proof.
  unfold is_leap.
  replace (y + 400 * k) with (y + (100 * k) * 4) by ring. rewrite Z.mod_add by lia.
  replace (y + 100 * k * 4) with (y + (4 * k) * 100) by ring. rewrite Z.mod_add by lia.
  replace (y + 4 * k * 100) with (y + k * 400) by ring. rewrite Z.mod_add by lia.
  reflexivity.
Qed.

Lemma days_in_month_shift (y m k : Z) :
  days_in_month (y + 400 * k) m = days_in_month y m.
Proof. unfold days_in_month. rewrite is_leap_shift. reflexivity. Qed.

Definition civil_ok (y m d : Z) : bool :=
  match civil_from_days (days_from_civil y m d) with
  | (y', m', d') => (y' =? y) && (m' =? m) && (d' =? d)
  end.

Definition Zrange (a n : nat) : list Z := map Z.of_nat (seq a n).

(** Every date of the 400-year cycle starting at year 0 comes back. *)
Lemma era_check_true :
  forallb (fun y =>
    forallb (fun m =>
      forallb (fun d => civil_ok y m d) (Zrange 1 (Z.to_nat (days_in_month y m))))
      (Zrange 1 12))
    (Zrange 0 400) = true.
Proof. vm_compute. reflexivity. Qed.

Lemma in_Zrange (a n : nat) (x : Z) :
  (Z.of_nat a <= x < Z.of_nat a + Z.of_nat n) -> In x (Zrange a n).
Proof.
  intros Hx. unfold Zrange. apply in_map_iff. exists (Z.to_nat x).
  split; [lia|]. apply in_seq. lia.
Qed.

Lemma civil_roundtrip (y m d : Z) :
  1 <= m <= 12 -> 1 <= d <= days_in_month y m ->
  civil_from_days (days_from_civil y m d) = (y, m, d).
Proof.
  intros Hm Hd.
  pose proof (Z.div_mod y 400 ltac:(lia)) as Hy.
  pose proof (Z.mod_pos_bound y 400 ltac:(lia)) as Hb.
  set (y0 := y mod 400) in *. set (k := y / 400) in *.
  rewrite Hy in Hd |- *. rewrite Z.add_comm in Hd |- *. rewrite days_in_month_shift in Hd.
  rewrite days_from_civil_shift, civil_from_days_shift.
  assert (Hok : civil_ok y0 m d = true).
  { pose proof era_check_true as H.
    rewrite forallb_forall in H. specialize (H y0 ltac:(apply in_Zrange; lia)).
    rewrite forallb_forall in H. specialize (H m ltac:(apply in_Zrange; lia)).
    rewrite forallb_forall in H. apply H. apply in_Zrange.
    unfold days_in_month in Hd |- *.
    destruct (m =? 2); [destruct (is_leap y0)|destruct (_ || _)%bool]; lia. }
  unfold civil_ok in Hok.
  destruct (civil_from_days (days_from_civil y0 m d)) as [[y' m'] d'].
  apply andb_true_iff in Hok as [Hok H3]. apply andb_true_iff in Hok as [H1 H2].
  apply Z.eqb_eq in H1, H2, H3. rewrite H1, H2, H3; reflexivity.
Qed.

Definition dc (k : Z) : ascii := ascii_of_nat (48 + Z.to_nat k).

Lemma dig_spec (x : ascii) (k : Z) : dig x = Some k -> 0 <= k <= 9 /\ x = dc k.
Proof.
  destruct x as [[] [] [] [] [] [] [] []]; intros H; vm_compute in H;
    first [discriminate | injection H as <-; split; [lia|reflexivity]].
Qed.

Lemma num2_spec (a b : ascii) (n : Z) :
  num2 a b = Some n -> exists x y, dig a = Some x /\ dig b = Some y /\ n = 10 * x + y.
Proof.
  unfold num2. destruct (dig a) as [x|], (dig b) as [y|]; try discriminate.
  intros H; injection H as <-. eauto.
Qed.

Lemma two_digit_check_true :
  forallb (fun x => forallb (fun y =>
    (10 * x + y =? 0) ||
    String.eqb (padStart2 (Z_to_string (10 * x + y))) (string_of_list_ascii [dc x; dc y]))
    (Zrange 0 10)) (Zrange 0 10) = true.
Proof. vm_compute. reflexivity. Qed.

Lemma four_digit_check_true :
  forallb (fun x1 => forallb (fun x2 => forallb (fun x3 => forallb (fun x4 =>
    String.eqb (Z_to_string (100 * (10 * x1 + x2) + (10 * x3 + x4)))
               (string_of_list_ascii [dc x1; dc x2; dc x3; dc x4]))
    (Zrange 0 10)) (Zrange 0 10)) (Zrange 0 10)) (Zrange 1 9) = true.
Proof. vm_compute. reflexivity. Qed.

Lemma pad_two_digits (a b : ascii) (n : Z) :
  num2 a b = Some n -> 1 <= n -> padStart2 (Z_to_string n) = string_of_list_ascii [a; b].
Proof.
  intros H Hn. apply num2_spec in H as (x & y & Hx & Hy & ->).
  apply dig_spec in Hx as [Hx ->]. apply dig_spec in Hy as [Hy ->].
  pose proof two_digit_check_true as C.
  rewrite forallb_forall in C. specialize (C x ltac:(apply in_Zrange; lia)).
  rewrite forallb_forall in C. specialize (C y ltac:(apply in_Zrange; lia)).
  apply orb_true_iff in C as [C|C]; [apply Z.eqb_eq in C; lia|].
  apply String.eqb_eq in C. exact C.
Qed.

Lemma four_digits (a b c d : ascii) (n : Z) :
  num4 a b c d = Some n -> a <> "0"%char ->
  Z_to_string n = string_of_list_ascii [a; b; c; d].
Proof.
  unfold num4. destruct (num2 a b) as [p|] eqn:Hab, (num2 c d) as [q|] eqn:Hcd;
    try discriminate.
  intros H Ha; injection H as <-.
  apply num2_spec in Hab as (x1 & x2 & H1 & H2 & ->).
  apply num2_spec in Hcd as (x3 & x4 & H3 & H4 & ->).
  apply dig_spec in H1 as [B1 ->]. apply dig_spec in H2 as [B2 ->].
  apply dig_spec in H3 as [B3 ->]. apply dig_spec in H4 as [B4 ->].
  assert (Hx1 : x1 <> 0) by (intros ->; apply Ha; reflexivity).
  pose proof four_digit_check_true as C.
  rewrite forallb_forall in C. specialize (C x1 ltac:(apply in_Zrange; lia)).
  rewrite forallb_forall in C. specialize (C x2 ltac:(apply in_Zrange; lia)).
  rewrite forallb_forall in C. specialize (C x3 ltac:(apply in_Zrange; lia)).
  rewrite forallb_forall in C. specialize (C x4 ltac:(apply in_Zrange; lia)).
  apply String.eqb_eq in C. exact C.
Qed.

(** In a time zone at or east of UTC (offset in [0, 1 day)), [format]
    shows a valid [YYYY-MM-DD] string whose year does not start with 0 as
    [DD/MM/YYYY]: the same digits, reordered. *)
Theorem format_date_string (tz : Z) (s : string) (a b c d e f g h : ascii)
    (Htz : 0 <= tz < msPerDay)
    (Hs : list_ascii_of_string s = [a; b; c; d; "-"; e; f; "-"; g; h]%char)
    (Hp : parse_date_string s <> None)
    (Ha : a <> "0"%char) :
  format tz (JStr s) = string_of_list_ascii [g; h; "/"; e; f; "/"; a; b; c; d]%char.
Proof.
  assert (Hne : s <> "") by (intros ->; discriminate).
  unfold parse_date_string in Hp. rewrite Hs in Hp. cbn in Hp.
  destruct (num4 a b c d) as [y|] eqn:E4; [|congruence].
  destruct (num2 e f) as [m|] eqn:E2; [|congruence].
  destruct (num2 g h) as [dd|] eqn:E3; [|congruence].
  unfold utc_date in Hp.
  destruct ((1 <=? m) && (m <=? 12) && (1 <=? dd) && (dd <=? days_in_month y m))%bool
    eqn:V; [|congruence].
  repeat rewrite andb_true_iff in V. rewrite !Z.leb_le in V.
  destruct V as [[[V1 V2] V3] V4].
  assert (Hparse : parse (JStr s) = Some (days_from_civil y m dd * msPerDay)).
  { unfold parse. destruct s as [|c0 s']; [congruence|]. cbn [truthy negb].
    replace (String.eqb (String c0 s') "") with false by reflexivity.
    cbn [negb]. unfold parse_date_string. rewrite Hs. cbn.
    rewrite E4, E2, E3. unfold utc_date.
    replace ((1 <=? m) && (m <=? 12) && (1 <=? dd) && (dd <=? days_in_month y m))%bool
      with true by (symmetry; repeat rewrite andb_true_iff; rewrite !Z.leb_le; lia).
    reflexivity. }
  unfold format. rewrite Hparse.
  rewrite Z.div_add_l by (unfold msPerDay; lia).
  rewrite (Z.div_small tz msPerDay Htz), Z.add_0_r.
  rewrite civil_roundtrip by lia.
  rewrite (pad_two_digits g h dd E3) by lia.
  rewrite (pad_two_digits e f m E2) by lia.
  rewrite (four_digits a b c d y E4 Ha).
  reflexivity.
Qed.

Lemma format_date_string_witness :
  list_ascii_of_string "2026-10-15" = ["2"; "0"; "2"; "6"; "-"; "1"; "0"; "-"; "1"; "5"]%char /\
  parse_date_string "2026-10-15" <> None /\
  format 3600000 (JStr "2026-10-15") = "15/10/2026".
Proof.
  assert (Hs : list_ascii_of_string "2026-10-15"
               = ["2"; "0"; "2"; "6"; "-"; "1"; "0"; "-"; "1"; "5"]%char) by reflexivity.
  assert (Hp : parse_date_string "2026-10-15" <> None) by (vm_compute; discriminate).
  split; [exact Hs|]. split; [exact Hp|].
  exact (format_date_string 3600000 "2026-10-15" _ _ _ _ _ _ _ _
           ltac:(unfold msPerDay; lia) Hs Hp ltac:(discriminate)).
Defined.

(* ----------------------------------------------------------------- *)
(** *** The exported CSV file *)

(** A reader for CSV text whose every field is quoted (RFC 4180 quoting:
    a doubled double quote stands for one), with rows separated by CR LF. *)
Fixpoint read_quoted (l : list ascii) : option (list ascii * list ascii) :=
  match l with
  | [] => None
  | c :: r =>
      if (c =? dq_char)%char then
        match r with
        | c' :: r' =>
            if (c' =? dq_char)%char then
              match read_quoted r' with Some (s, t) => Some (dq_char :: s, t) | None => None end
            else Some ([], r)
        | [] => Some ([], [])
        end
      else match read_quoted r with Some (s, t) => Some (c :: s, t) | None => None end
  end.

Fixpoint read_row (fuel : nat) (l : list ascii) : option (list string * list ascii) :=
  match fuel with
  | O => None
  | S f =>
      match l with
      | c :: r =>
          if (c =? dq_char)%char then
            match read_quoted r with
            | Some (cell, c2 :: rest) =>
                if (c2 =? ",")%char then
                  match read_row f rest with
                  | Some (cells, t) => Some (string_of_list_ascii cell :: cells, t)
                  | None => None
                  end
                else if (c2 =? cr_char)%char then
                  match rest with
                  | c3 :: t =>
                      if (c3 =? nl_char)%char then Some ([string_of_list_ascii cell], t)
                      else None
                  | [] => None
                  end
                else None
            | Some (cell, []) => Some ([string_of_list_ascii cell], [])
            | None => None
            end
          else None
      | [] => None
      end
  end.

Fixpoint read_rows (fuel : nat) (l : list ascii) : option (list (list string)) :=
  match fuel with
  | O => None
  | S f =>
      match l with
      | [] => Some []
      | _ :: _ =>
          match read_row (length l) l with
          | Some (row, t) =>
              match read_rows f t with Some rows => Some (row :: rows) | None => None end
          | None => None
          end
      end
  end.

Definition read_csv (s : string) : option (list (list string)) :=
  let l := list_ascii_of_string s in read_rows (S (length l)) l.

Definition quote_str (s : string) : string := (dq ++ escape_dq s ++ dq)%string.

Definition encode_row (cells : list string) : string := join "," (map quote_str cells).

Lemma la_app (a b : string) :
  list_ascii_of_string (a ++ b)%string = list_ascii_of_string a ++ list_ascii_of_string b.
Proof. induction a as [|c a IH]; simpl; [reflexivity|]. rewrite IH. reflexivity. Qed.

Lemma read_quoted_escape (s : string) (t : list ascii) :
  match t with c :: _ => c <> dq_char | [] => True end ->
  read_quoted (list_ascii_of_string (escape_dq s) ++ dq_char :: t)%list
    = Some (list_ascii_of_string s, t).
Proof.
  intros Ht. induction s as [|c s IH]; simpl.
  - replace ((dq_char =? dq_char)%char) with true by reflexivity.
    destruct t as [|c t]; [reflexivity|].
    destruct ((c =? dq_char)%char) eqn:E; [apply Ascii.eqb_eq in E; congruence|reflexivity].
  - destruct ((c =? dq_char)%char) eqn:E; simpl.
    + apply Ascii.eqb_eq in E; subst c.
      replace ((dq_char =? dq_char)%char) with true by reflexivity.
      rewrite IH. reflexivity.
    + rewrite E, IH. reflexivity.
Qed.

Lemma string_of_list_ascii_of_string' (s : string) :
  string_of_list_ascii (list_ascii_of_string s) = s.
Proof. apply string_of_list_ascii_of_string. Qed.

Lemma encode_row_cons (x y : string) (r : list string) :
  encode_row (x :: y :: r) = (quote_str x ++ "," ++ encode_row (y :: r))%string.
Proof. reflexivity. Qed.

Lemma la_quote (x : string) :
  list_ascii_of_string (quote_str x) = dq_char :: list_ascii_of_string (escape_dq x) ++ [dq_char].
Proof. unfold quote_str. rewrite !la_app. reflexivity. Qed.

Lemma dq_char_eqb : (dq_char =? dq_char)%char = true.
Proof. reflexivity. Qed.

Lemma read_row_encode (cells : list string) (f : nat) (t : list ascii) :
  cells <> [] -> (length cells <= f)%nat ->
  (t = [] \/ exists t', t = cr_char :: nl_char :: t') ->
  read_row f (list_ascii_of_string (encode_row cells) ++ t)
    = Some (cells, match t with _ :: _ :: t' => t' | _ => [] end).
Proof.
  revert f. induction cells as [|x r IH]; intros f Hne Hf Ht; [congruence|].
  destruct f as [|f]; [simpl in Hf; lia|].
  destruct r as [|y r].
  - change (encode_row [x]) with (quote_str x). rewrite la_quote.
    cbn [app]. rewrite <- app_assoc. cbn [app read_row]. rewrite dq_char_eqb.
    rewrite read_quoted_escape by (destruct Ht as [->|[t' ->]]; [exact I|discriminate]).
    rewrite string_of_list_ascii_of_string'.
    destruct Ht as [->|[t' ->]]; reflexivity.
  - rewrite encode_row_cons, !la_app, la_quote.
    cbn [app]. rewrite <- app_assoc. cbn [app]. rewrite <- app_assoc.
    cbn [app read_row]. rewrite dq_char_eqb.
    rewrite read_quoted_escape by discriminate.
    cbn [list_ascii_of_string app].
    replace (("," =? ",")%char) with true by reflexivity.
    rewrite (IH f) by (try discriminate; try (simpl in Hf |- *; lia); exact Ht).
    rewrite string_of_list_ascii_of_string'. reflexivity.
Qed.

Lemma encode_row_shape (x : string) (r : list string) :
  exists l', list_ascii_of_string (encode_row (x :: r)) = dq_char :: l'.
Proof.
  destruct r as [|y r].
  - change (encode_row [x]) with (quote_str x). rewrite la_quote. eauto.
  - rewrite encode_row_cons, la_app, la_quote. eauto.
Qed.

Lemma encode_row_length (cells : list string) :
  (length cells <= length (list_ascii_of_string (encode_row cells)))%nat.
Proof.
  induction cells as [|x r IH]; [simpl; lia|].
  destruct r as [|y r].
  - change (encode_row [x]) with (quote_str x). rewrite la_quote. simpl. lia.
  - rewrite encode_row_cons, !la_app, la_quote, !length_app. simpl in IH |- *. lia.
Qed.

Lemma read_rows_step (f : nat) (l : list ascii) :
  l <> [] ->
  read_rows (S f) l =
  match read_row (length l) l with
  | Some (row, t) => match read_rows f t with Some rows => Some (row :: rows) | None => None end
  | None => None
  end.
Proof. destruct l; [congruence|reflexivity]. Qed.

Lemma read_rows_encode (rows : list (list string)) (f : nat) :
  Forall (fun r => r <> []) rows -> (length rows < f)%nat ->
  read_rows f (list_ascii_of_string (join crlf (map encode_row rows))) = Some rows.
Proof.
  revert f. induction rows as [|r rows IH]; intros f Hne Hf.
  - destruct f; [simpl in Hf; lia|reflexivity].
  - destruct f as [|f]; [simpl in Hf; lia|].
    inversion Hne as [|? ? Hr Hrest]; subst.
    destruct r as [|x r']; [congruence|].
    destruct (encode_row_shape x r') as [l' Hl'].
    destruct rows as [|r2 rows].
    + cbn [map join]. rewrite read_rows_step by (rewrite Hl'; discriminate).
      rewrite <- (app_nil_r (list_ascii_of_string (encode_row (x :: r')))) at 2.
      rewrite read_row_encode by (auto; pose proof (encode_row_length (x :: r')); lia).
      destruct f; [simpl in Hf; lia|reflexivity].
    + replace (join crlf (map encode_row ((x :: r') :: r2 :: rows)))
        with (encode_row (x :: r') ++ crlf ++ join crlf (map encode_row (r2 :: rows)))%string
        by reflexivity.
      rewrite read_rows_step by (rewrite la_app, Hl'; discriminate).
      rewrite la_app, la_app.
      change (list_ascii_of_string crlf) with [cr_char; nl_char]. cbn [app].
      rewrite read_row_encode.
      * rewrite (IH f Hrest) by (simpl in Hf |- *; lia). reflexivity.
      * discriminate.
      * rewrite length_app. pose proof (encode_row_length (x :: r')). lia.
      * right. eexists. reflexivity.
Qed.

(** Reading a CSV text made of quoted rows gives the rows back. *)
Lemma read_csv_encode (rows : list (list string)) :
  Forall (fun r => r <> []) rows ->
  read_csv (join crlf (map encode_row rows)) = Some rows.
Proof.
  intros Hne. unfold read_csv. apply read_rows_encode; [exact Hne|].
  induction rows as [|r rows IH]; [simpl; lia|].
  inversion Hne as [|? ? Hr Hrest]; subst. specialize (IH Hrest).
  destruct rows as [|r2 rows].
  - cbn [map join length].
    destruct r as [|x r']; [congruence|].
    destruct (encode_row_shape x r') as [l' ->]. simpl. lia.
  - change (join crlf (map encode_row (r :: r2 :: rows)))
      with (encode_row r ++ crlf ++ join crlf (map encode_row (r2 :: rows)))%string.
    rewrite !la_app, !length_app.
    change (length (list_ascii_of_string crlf)) with 2%nat.
    cbn [length] in IH |- *. lia.
Qed.

Lemma all_some_none {A : Type} (l : list (option A)) :
  all_some l = None <-> Exists (fun o => o = None) l.
Proof.
  induction l as [|[x|] l IH]; cbn.
  - split; [discriminate|intros H; inversion H].
  - destruct (all_some l) eqn:E.
    + split; [discriminate|]. intros H. inversion H as [? ? Hx|? ? Hl]; subst; [discriminate|].
      apply IH in Hl. discriminate.
    + split; [intros _; right; apply IH; reflexivity|reflexivity].
  - split; [intros _; left; reflexivity|reflexivity].
Qed.

Lemma all_some_some {A B : Type} (g : A -> option B) (l : list A) (ys : list B) :
  all_some (map g l) = Some ys -> Forall2 (fun a b => g a = Some b) l ys.
Proof.
  revert ys; induction l as [|a l IH]; intros ys; cbn.
  - intros H; injection H as <-. constructor.
  - destruct (g a) as [b|] eqn:Ea; [|discriminate].
    destruct (all_some (map g l)) as [bs|] eqn:E; [|discriminate].
    intros H; injection H as <-. constructor; [exact Ea|]. apply IH. reflexivity.
Qed.

Lemma csv_line_some (row : list tv) (line : string) :
  csv_line row = Some line -> exists ss, row = map TStr ss /\ line = encode_row ss.
Proof.
  unfold csv_line. destruct (all_some (map quote_cell row)) as [cells|] eqn:E; [|discriminate].
  intros H; injection H as <-. apply all_some_some in E.
  assert (Hgen : forall row cells, Forall2 (fun a b => quote_cell a = Some b) row cells ->
            exists ss, row = map TStr ss /\ cells = map quote_str ss).
  { clear. intros row cells H. induction H as [|a b row cells Hab _ [ss [-> ->]]].
    - exists []. split; reflexivity.
    - destruct a as [| |s]; try discriminate. injection Hab as <-.
      exists (s :: ss). split; reflexivity. }
  destruct (Hgen _ _ E) as [ss [-> ->]]. exists ss. split; reflexivity.
Qed.

Lemma lines_encode (rows : list (list tv)) (lines : list string) :
  Forall2 (fun row line => csv_line row = Some line) rows lines ->
  exists sss, lines = map encode_row sss /\ Forall2 (fun row ss => row = map TStr ss) rows sss.
Proof.
  induction 1 as [|row line rows lines H _ [sss [-> Hs]]].
  - exists []. split; [reflexivity|constructor].
  - apply csv_line_some in H as [ss [-> ->]].
    exists (ss :: sss). split; [reflexivity|]. constructor; [reflexivity|exact Hs].
Qed.

Lemma map_TStr_inj (a b : list string) : map TStr a = map TStr b -> a = b.
Proof.
  revert b; induction a as [|x a IH]; intros [|y b]; cbn; try discriminate; [reflexivity|].
  intros H; injection H as -> H. f_equal. apply IH, H.
Qed.

(** A downloaded export is a well-formed CSV file: reading it back gives
    the header row, then one row per item shown in the table (filtered
    and sorted as displayed), whose cells are exactly the item's values,
    commas, quotes and line breaks included. *)
Theorem exportCsv_roundtrip (tz now : Z) (nts : num -> string) (state : UIState.t)
    (fname csv : string)
    (Hd : exportCsv tz now nts state = ExportDownload fname csv) :
  exists rows,
    read_csv csv = Some (csv_header :: rows) /\
    Forall2 (fun row item => map TStr row = csv_values tz now nts item) rows
      (sort (filter tz now (UIState.items state) (UIState.filters state))
            (UIState.sortField state) (UIState.sortDirection state)).
Proof.
  revert Hd. unfold exportCsv. cbv zeta.
  set (view := sort (filter tz now (UIState.items state) (UIState.filters state))
                 (UIState.sortField state) (UIState.sortDirection state)).
  destruct (length view =? 0)%nat; [discriminate|].
  destruct (all_some (map csv_line (map TStr csv_header :: map (csv_values tz now nts) view)))
    as [lines|] eqn:E; [|discriminate].
  intros H; injection H as _ <-.
  apply all_some_some, lines_encode in E as [sss [-> Hs]].
  inversion Hs as [|? hs ? rest Hh Hrest]; subst.
  assert (Hhs : hs = csv_header) by (apply map_TStr_inj; symmetry; exact Hh). subst hs.
  assert (Hflip : forall l rs, Forall2 (fun row ss => row = map TStr ss)
                                 (map (csv_values tz now nts) l) rs ->
                  Forall2 (fun row item => map TStr row = csv_values tz now nts item) rs l).
  { clear. induction l as [|i l IH]; intros rs H; inversion H; subst; constructor; auto. }
  assert (Hne : Forall (fun r => r <> []) rest).
  { clear - Hrest. revert Hrest. generalize view. induction rest as [|r rest IH]; intros v H;
      [constructor|].
    destruct v as [|i v]; inversion H as [|? ? ? ? Hr Hv]; subst.
    constructor; [|exact (IH v Hv)].
    intros ->. unfold csv_values in Hr. discriminate. }
  exists rest. split.
  - apply read_csv_encode. constructor; [discriminate|exact Hne].
  - apply Hflip. exact Hrest.
Qed.

Definition is_text (v : tv) : bool := match v with TStr _ => true | _ => false end.

Lemma quote_cell_none (v : tv) : quote_cell v = None <-> is_text v = false.
Proof. destruct v; cbn; split; congruence. Qed.

Lemma Exists_map_iff {A B : Type} (f : A -> B) (P : B -> Prop) (l : list A) :
  Exists P (map f l) <-> Exists (fun a => P (f a)) l.
Proof.
  induction l as [|a l IH]; cbn.
  - split; intros H; inversion H.
  - rewrite !Exists_cons, IH. reflexivity.
Qed.

Lemma csv_line_none (row : list tv) :
  csv_line row = None <-> Exists (fun v => is_text v = false) row.
Proof.
  unfold csv_line. split.
  - destruct (all_some (map quote_cell row)) eqn:E; [discriminate|intros _].
    apply all_some_none, Exists_map_iff in E.
    eapply Exists_impl; [exact E|]. cbn. intros v Hv. apply quote_cell_none, Hv.
  - intros H.
    assert (E : all_some (map quote_cell row) = None).
    { apply all_some_none, Exists_map_iff.
      eapply Exists_impl; [exact H|]. cbn. intros v Hv. apply quote_cell_none, Hv. }
    rewrite E. reflexivity.
Qed.

Lemma csv_values_text (tz now : Z) (nts : num -> string) (i : Item.t) :
  Exists (fun v => is_text v = false) (csv_values tz now nts i) <->
  is_text (Item.category i) = false \/ is_text (Item.itemName i) = false \/
  is_text (Item.status i) = false.
Proof.
  unfold csv_values.
  destruct (tv_or_str (Item.brand i) "") as [b ->].
  destruct (tv_or_str (Item.contentVolume i) "") as [cv ->].
  destruct (tv_or_str (Item.lotNumber i) "") as [ln ->].
  destruct (tv_or_str (Item.remarks i) "") as [rm ->].
  rewrite !Exists_cons. rewrite Exists_nil. cbn [is_text].
  split; intros H; intuition congruence.
Qed.

(** [exportCsv] shows the "No inventory data" alert exactly when no item
    passes the filters, and fails with a TypeError exactly when some item
    shown has a category, item name or status that is null or undefined
    (its [replace] call throws); otherwise the file is downloaded. *)
Theorem exportCsv_outcome (tz now : Z) (nts : num -> string) (state : UIState.t) :
  let view := sort (filter tz now (UIState.items state) (UIState.filters state))
                (UIState.sortField state) (UIState.sortDirection state) in
  (exportCsv tz now nts state = ExportAlert export_empty_msg <-> view = []) /\
  (exportCsv tz now nts state = ExportThrows <->
   Exists (fun i => is_text (Item.category i) = false \/ is_text (Item.itemName i) = false \/
                    is_text (Item.status i) = false) view) /\
  ((exists fname csv, exportCsv tz now nts state = ExportDownload fname csv) <->
   view <> [] /\
   Forall (fun i => is_text (Item.category i) = true /\ is_text (Item.itemName i) = true /\
                    is_text (Item.status i) = true) view).
Proof.
  cbv zeta. unfold exportCsv. cbv zeta.
  set (view := sort (filter tz now (UIState.items state) (UIState.filters state))
                 (UIState.sortField state) (UIState.sortDirection state)).
  assert (Hbad : all_some (map csv_line (map TStr csv_header :: map (csv_values tz now nts) view))
                   = None <->
                 Exists (fun i => is_text (Item.category i) = false \/
                                  is_text (Item.itemName i) = false \/
                                  is_text (Item.status i) = false) view).
  { rewrite all_some_none, (Exists_map_iff csv_line (fun o => o = None)), Exists_cons.
    rewrite Exists_map_iff.
    assert (Hh : csv_line (map TStr csv_header) = None <-> False) by (split; [discriminate|tauto]).
    rewrite Hh. split; [intros [[]|H]|intros H; right].
    - eapply Exists_impl; [exact H|]. intros i Hi. apply (proj1 (csv_values_text tz now nts i)), (proj1 (csv_line_none _)), Hi.
    - eapply Exists_impl; [exact H|]. intros i Hi. apply (proj2 (csv_line_none _)), (proj2 (csv_values_text tz now nts i)), Hi. }
  assert (Hall : forall l : list Item.t,
            ~ Exists (fun i => is_text (Item.category i) = false \/
                               is_text (Item.itemName i) = false \/
                               is_text (Item.status i) = false) l <->
            Forall (fun i => is_text (Item.category i) = true /\ is_text (Item.itemName i) = true /\
                             is_text (Item.status i) = true) l).
  { intros l. rewrite <- Forall_Exists_neg. split; intros H; eapply Forall_impl; try exact H;
      cbn; intros i Hi;
      destruct (is_text (Item.category i)), (is_text (Item.itemName i)),
               (is_text (Item.status i)); intuition congruence. }
  destruct view as [|v0 vs] eqn:Ev; cbn [length Nat.eqb].
  - split; [split; reflexivity|]. split.
    + split; [discriminate|intros H; inversion H].
    + split; [intros (? & ? & ?); discriminate|intros [H _]; congruence].
  - rewrite <- Ev in Hbad |- *.
    destruct (all_some _) as [lines|] eqn:E.
    + split; [split; [discriminate|intros H; rewrite H in Ev; discriminate]|]. split.
      * split; [discriminate|]. intros H. apply Hbad in H. congruence.
      * split; [intros _|intros _; eauto]. split; [rewrite Ev; discriminate|].
        apply Hall. intros H. apply Hbad in H. congruence.
    + split; [split; [discriminate|intros H; rewrite H in Ev; discriminate]|]. split.
      * split; [intros _; apply Hbad; reflexivity|reflexivity].
      * split; [intros (? & ? & ?); discriminate|]. intros [_ H]. apply Hall in H.
        exfalso. apply H, Hbad. reflexivity.
Qed.

Lemma exportCsv_roundtrip_witness :
  exists fname csv,
    exportCsv 0 noon_2026_10_15 (fun _ => "0") export_state = ExportDownload fname csv /\
    exists rows,
      read_csv csv = Some (csv_header :: rows) /\
      Forall2 (fun row item => map TStr row = csv_values 0 noon_2026_10_15 (fun _ => "0") item) rows
        (sort (filter 0 noon_2026_10_15 (UIState.items export_state) (UIState.filters export_state))
              (UIState.sortField export_state) (UIState.sortDirection export_state)).
Proof.
  destruct (exportCsv 0 noon_2026_10_15 (fun _ => "0") export_state) as [m| |fname csv] eqn:E;
    [vm_compute in E; discriminate|vm_compute in E; discriminate|].
  exists fname, csv. split; [reflexivity|].
  exact (exportCsv_roundtrip 0 noon_2026_10_15 (fun _ => "0") export_state fname csv E).
Defined.

(* ----------------------------------------------------------------- *)
(** *** Reading the filter controls *)

Definition ws_free_start (l : list ascii) : Prop :=
  match l with c :: _ => is_ws c = false | [] => True end.

Lemma drop_ws_suffix (l : list ascii) : exists p, l = p ++ drop_ws l.
Proof.
  induction l as [|c r [p Hp]]; simpl; [exists []; reflexivity|].
  destruct (is_ws c); [exists (c :: p); simpl; rewrite <- Hp; reflexivity|exists []; reflexivity].
Qed.

Lemma drop_ws_start (l : list ascii) : ws_free_start (drop_ws l).
Proof.
  induction l as [|c r IH]; simpl; [exact I|].
  destruct (is_ws c) eqn:E; [exact IH|exact E].
Qed.

Lemma drop_ws_id (l : list ascii) : ws_free_start l -> drop_ws l = l.
Proof. destruct l as [|c r]; simpl; [reflexivity|intros ->; reflexivity]. Qed.

Lemma ws_free_start_app (l m : list ascii) :
  l <> [] -> ws_free_start l -> ws_free_start (l ++ m).
Proof. destruct l; simpl; [congruence|auto]. Qed.

Lemma rev_drop_rev_start (l : list ascii) :
  ws_free_start l -> ws_free_start (rev (drop_ws (rev l))).
Proof.
  intros H. destruct (drop_ws_suffix (rev l)) as [p Hp].
  assert (Hl : l = rev (drop_ws (rev l)) ++ rev p).
  { rewrite <- rev_app_distr, <- Hp, rev_involutive. reflexivity. }
  destruct (rev (drop_ws (rev l))) as [|c r] eqn:E; [exact I|].
  rewrite Hl in H. exact H.
Qed.

Lemma trim_ws_start (l : list ascii) : ws_free_start (trim_ws l).
Proof. unfold trim_ws. apply rev_drop_rev_start, drop_ws_start. Qed.

Lemma trim_ws_end (l : list ascii) : ws_free_start (rev (trim_ws l)).
Proof. unfold trim_ws. rewrite rev_involutive. apply drop_ws_start. Qed.

Lemma la_trim (s : string) : list_ascii_of_string (trim s) = trim_ws (list_ascii_of_string s).
Proof. unfold trim. apply list_ascii_of_string_of_list_ascii. Qed.

Lemma la_inj (a b : string) : list_ascii_of_string a = list_ascii_of_string b -> a = b.
Proof.
  intros H. rewrite <- (string_of_list_ascii_of_string a), <- (string_of_list_ascii_of_string b), H.
  reflexivity.
Qed.

Lemma la_space_app (a b : string) :
  list_ascii_of_string (a ++ " " ++ b)%string =
  list_ascii_of_string a ++ " "%char :: list_ascii_of_string b.
Proof. induction a as [|c a IH]; simpl; [reflexivity|rewrite IH; reflexivity]. Qed.

(** Two trimmed strings joined by one space and trimmed again. *)
Lemma trim_join (a b : string) :
  trim (trim a ++ " " ++ trim b)%string =
  if String.eqb (trim a) "" then trim b
  else if String.eqb (trim b) "" then trim a
  else (trim a ++ " " ++ trim b)%string.
Proof.
  apply la_inj. rewrite la_trim, la_space_app, !la_trim.
  pose proof (trim_ws_start (list_ascii_of_string a)) as Sa.
  pose proof (trim_ws_end (list_ascii_of_string a)) as Ea.
  pose proof (trim_ws_start (list_ascii_of_string b)) as Sb.
  pose proof (trim_ws_end (list_ascii_of_string b)) as Eb.
  set (ta := trim_ws (list_ascii_of_string a)) in *.
  set (tb := trim_ws (list_ascii_of_string b)) in *.
  assert (Ha : String.eqb (trim a) "" = match ta with [] => true | _ => false end).
  { unfold trim; fold ta. destruct ta; reflexivity. }
  assert (Hb : String.eqb (trim b) "" = match tb with [] => true | _ => false end).
  { unfold trim; fold tb. destruct tb; reflexivity. }
  rewrite Ha, Hb. unfold trim_ws.
  destruct ta as [|ca ra] eqn:Eta.
  - cbn [app drop_ws]. replace (is_ws " ") with true by reflexivity.
    rewrite (drop_ws_id tb Sb), (drop_ws_id (rev tb) Eb), rev_involutive.
    rewrite la_trim. reflexivity.
  - rewrite <- Eta in *. 
    rewrite (drop_ws_id (ta ++ " "%char :: tb)) by (apply ws_free_start_app; [subst ta; congruence|exact Sa]).
    rewrite rev_app_distr. cbn [rev app].
    destruct tb as [|cb rb] eqn:Etb.
    + cbn [rev app drop_ws]. replace (is_ws " ") with true by reflexivity.
      rewrite (drop_ws_id (rev ta) Ea), rev_involutive. rewrite la_trim. fold ta. reflexivity.
    + rewrite <- Etb in *.
      rewrite <- app_assoc.
      rewrite (drop_ws_id (rev tb ++ _)) by (apply ws_free_start_app; [intros Hn; apply (f_equal (@length ascii)) in Hn; rewrite length_rev, Etb in Hn; discriminate|exact Eb]).
      rewrite rev_app_distr, rev_involutive. cbn [rev app]. rewrite <- ?app_assoc. cbn [app].
      rewrite rev_involutive, la_space_app, !la_trim. reflexivity.
Qed.


(** [handleFilters] sets the search text to the trimmed text of the box
    that has some, or to both trimmed texts joined by one space when
    both have some; a missing box counts as empty. *)
Theorem handleFilters_search (state : UIState.t) (searchInput topSearchInput filterCategory : option string)
    (filterStatus filterExpiry filterLowStock : string) :
  let baseSearch := match searchInput with Some v => trim v | None => "" end in
  let topSearch := match topSearchInput with Some v => trim v | None => "" end in
  Filters.search (UIState.filters
    (handleFilters state searchInput topSearchInput filterCategory filterStatus filterExpiry filterLowStock)) =
  if String.eqb baseSearch "" then topSearch
  else if String.eqb topSearch "" then baseSearch
  else (baseSearch ++ " " ++ topSearch)%string.
Proof.
  cbv zeta. unfold handleFilters. cbn [UIState.filters Filters.search].
  destruct searchInput as [b|], topSearchInput as [t|];
    [exact (trim_join b t)|exact (trim_join b "")|exact (trim_join "" t)|exact (trim_join "" "")].
Qed.

Lemma count_by_app_le (p q : Item.t -> bool) (l : list Item.t) :
  (forall i, p i = true -> q i = false) ->
  (count_by p l + count_by q l <= length l)%nat.
Proof.
  intros H. unfold count_by. induction l as [|x l IH]; simpl; [lia|].
  destruct (p x) eqn:Ep; [rewrite (H x Ep)|destruct (q x)]; simpl; lia.
Qed.

Lemma count_by_le (p : Item.t -> bool) (l : list Item.t) : (count_by p l <= length l)%nat.
Proof.
  pose proof (count_by_app_le p (fun _ => false) l (fun _ _ => eq_refl)) as H. lia.
Qed.

(** No item is counted both as expired and as expiring soon, so the two
    counters of [computeAlerts] add up to at most the number of items;
    each other counter is at most that number too. *)
Theorem computeAlerts_bounds (tz now : Z) (items : list Item.t) :
  (expired (computeAlerts tz now items) + expSoon (computeAlerts tz now items) <= length items)%nat /\
  (outOfStock (computeAlerts tz now items) <= length items)%nat /\
  (zeroQty (computeAlerts tz now items) <= length items)%nat.
Proof.
  unfold computeAlerts. rewrite alerts_fold. cbn [expired expSoon outOfStock zeroQty].
  split; [|split; apply count_by_le].
  apply count_by_app_le. unfold has_code. intros i Hi.
  apply String.eqb_eq in Hi. rewrite Hi. reflexivity.
Qed.

(* ----------------------------------------------------------------- *)
(** *** Refused writes *)

(** A write the backend rejects (an [error] answer or a throw) leaves the
    table as it was, and [upsert] and [remove] then return what [load]
    returns on that table. *)
Theorem repository_failed_write (cl : client) (s : st) (item : Item.t) (id : tv) :
  (do_upsert cl (rows s) (mapItemToRow item) <> WOk ->
   rows (fst (upsert (Some cl) s item)) = rows s /\
   snd (upsert (Some cl) s item) = snd (load (Some cl) s)) /\
  (do_delete cl (rows s) id <> WOk ->
   rows (fst (remove (Some cl) s id)) = rows s /\
   snd (remove (Some cl) s id) = snd (load (Some cl) s)).
Proof.
  unfold upsert, remove, load, getClient. split; intros Hw.
  - destruct (do_upsert cl (rows s) (mapItemToRow item)); [congruence| |];
      cbn [rows log_msg]; destruct (do_select cl (rows s)); split; reflexivity.
  - destruct (do_delete cl (rows s) id); [congruence| |];
      cbn [rows log_msg]; destruct (do_select cl (rows s)); split; reflexivity.
Qed.

Lemma repository_failed_write_witness :
  (rows (fst (upsert (Some rejecting_client) (mkSt [] []) blank)) = [] /\
   snd (upsert (Some rejecting_client) (mkSt [] []) blank) =
   snd (load (Some rejecting_client) (mkSt [] []))) /\
  (rows (fst (remove (Some rejecting_client) (mkSt [] []) (TStr "a"))) = [] /\
   snd (remove (Some rejecting_client) (mkSt [] []) (TStr "a")) =
   snd (load (Some rejecting_client) (mkSt [] []))).
Proof.
  destruct (repository_failed_write rejecting_client (mkSt [] []) blank (TStr "a")) as [Hu Hr].
  split; [apply Hu|apply Hr]; discriminate.
Defined.
